(** * Command resolution, value transformation and session handling of the
      free@home bridge, embedded from the module that exports [parse] and
      [set] (with its command table) and from [sysap.js] (stanza
      classification, keepalive).

    The JavaScript values the two files compute with are embedded first:
    IEEE 754 binary64 numbers (the Standard Library's [spec_float] at
    precision 53), strings, [undefined], and the conversions the source applies
    to them implicitly ([==], [+], [-], [parseInt], [parseFloat], property
    keys). *)

From Stdlib Require Import ZArith List String Ascii Bool Lia SpecFloat.
From stdpp Require Import gmap strings.
Import ListNotations.

Local Open Scope string_scope.
Local Open Scope Z_scope.

(** ** JavaScript numbers, strings and values *)

Module JS.

(** A Number is a binary64 float. *)
Definition prec : Z := 53.
Definition emax : Z := 1024.

Definition number : Type := spec_float.

Definition NaN : number := S754_nan.
Definition of_Z (z : Z) : number := binary_normalize prec emax z 0 false.
Definition num_add : number -> number -> number := SFadd prec emax.
Definition num_sub : number -> number -> number := SFsub prec emax.
Definition num_mul : number -> number -> number := SFmul prec emax.
Definition num_eqb : number -> number -> bool := SFeqb.
Definition num_leb : number -> number -> bool := SFleb.

(** The Number nearest to [m * 10^e] ([m >= 0]), ties to even; [neg] is the
    sign.  A negative exponent is one correctly rounded division. *)
Definition of_decimal (neg : bool) (m e : Z) : number :=
  match m with
  | Zpos p =>
      if 0 <=? e then binary_normalize prec emax (if neg then - (m * 10 ^ e) else m * 10 ^ e) 0 false
      else SFdiv prec emax (S754_finite neg p 0)
                           (S754_finite false (Z.to_pos (10 ^ (- e))) 0)
  | _ => S754_zero neg
  end.

(** *** Characters and scanning *)

(** WhiteSpace and LineTerminator code units below 256. *)
Definition is_ws (c : ascii) : bool :=
  let n := Z.of_N (N_of_ascii c) in
  (n =? 9) || (n =? 10) || (n =? 11) || (n =? 12) || (n =? 13) || (n =? 32) || (n =? 160).

Fixpoint trim_left (s : string) : string :=
  match s with
  | String c r => if is_ws c then trim_left r else s
  | EmptyString => s
  end.

Fixpoint rev_onto (s acc : string) : string :=
  match s with
  | String c r => rev_onto r (String c acc)
  | EmptyString => acc
  end.

Definition trim (s : string) : string :=
  rev_onto (trim_left (rev_onto (trim_left s) "")) "".

(** The value of [c] as a digit of the given radix. *)
Definition digit (radix : Z) (c : ascii) : option Z :=
  let n := Z.of_N (N_of_ascii c) in
  let v := if (48 <=? n) && (n <=? 57) then n - 48
           else if (97 <=? n) && (n <=? 122) then n - 87
           else if (65 <=? n) && (n <=? 90) then n - 55
           else 36 in
  if v <? radix then Some v else None.

(** Longest run of digits at the head of [s]: accumulated value, number of
    digits read, and the rest. *)
Fixpoint scan (radix : Z) (s : string) (acc cnt : Z) : Z * Z * string :=
  match s with
  | String c r =>
      match digit radix c with
      | Some v => scan radix r (acc * radix + v) (cnt + 1)
      | None => (acc, cnt, s)
      end
  | EmptyString => (acc, cnt, s)
  end.

(** Strings of decimal digits only. *)
Fixpoint all_decimal (s : string) : bool :=
  match s with
  | String c r => match digit 10 c with Some _ => all_decimal r | None => false end
  | EmptyString => true
  end.

Definition sign_part (s : string) : bool * string :=
  match s with
  | String "+" r => (false, r)
  | String "-" r => (true, r)
  | _ => (false, s)
  end.

(** ExponentPart, when a well-formed one is at the head of [s]. *)
Definition exponent_part (s : string) : Z * string :=
  match s with
  | String c r =>
      if (Ascii.eqb c "e" || Ascii.eqb c "E")%bool then
        let '(neg, r') := sign_part r in
        let '(v, cnt, rest) := scan 10 r' 0 0 in
        if cnt =? 0 then (0, s) else ((if neg then - v else v), rest)
      else (0, s)
  | EmptyString => (0, s)
  end.

(** Longest StrUnsignedDecimalLiteral (without Infinity) at the head of [s]:
    mantissa, decimal exponent and the rest. *)
Definition unsigned_decimal (s : string) : option (Z * Z * string) :=
  let '(ip, ic, r1) := scan 10 s 0 0 in
  match r1 with
  | String "." r2 =>
      let '(m, fc, r3) := scan 10 r2 ip 0 in
      if ((ic =? 0) && (fc =? 0))%bool then None
      else let '(e, r4) := exponent_part r3 in Some (m, e - fc, r4)
  | _ =>
      if ic =? 0 then None
      else let '(e, r4) := exponent_part r1 in Some (ip, e, r4)
  end.

Fixpoint drop (n : nat) (s : string) : string :=
  match n, s with
  | S n', String _ r => drop n' r
  | _, _ => s
  end.

Fixpoint take (n : nat) (s : string) : string :=
  match n, s with
  | S n', String c r => String c (take n' r)
  | _, _ => ""
  end.

(** Longest StrDecimalLiteral at the head of [s]. *)
Definition str_decimal (s : string) : option (number * string) :=
  let '(neg, r) := sign_part s in
  if String.prefix "Infinity" r then Some (S754_infinity neg, drop 8 r)
  else match unsigned_decimal r with
       | Some (m, e, rest) => Some (of_decimal neg m e, rest)
       | None => None
       end.

(** [0x], [0o] and [0b] integer literals (StringToNumber only). *)
Definition radix_prefix (s : string) : option (Z * string) :=
  match s with
  | String "0" (String c r) =>
      if (Ascii.eqb c "x" || Ascii.eqb c "X")%bool then Some (16, r)
      else if (Ascii.eqb c "o" || Ascii.eqb c "O")%bool then Some (8, r)
      else if (Ascii.eqb c "b" || Ascii.eqb c "B")%bool then Some (2, r)
      else None
  | _ => None
  end.

(** StringToNumber: the whole trimmed string must be a numeric literal; the
    empty string is [+0]. *)
Definition string_to_number (s : string) : number :=
  let t := trim s in
  match t with
  | EmptyString => of_Z 0
  | _ =>
      match radix_prefix t with
      | Some (radix, r) =>
          match scan radix r 0 0 with
          | (v, cnt, EmptyString) => if cnt =? 0 then NaN else of_Z v
          | _ => NaN
          end
      | None =>
          match str_decimal t with
          | Some (v, EmptyString) => v
          | _ => NaN
          end
      end
  end.

(** [parseFloat] on a string: the longest decimal literal after leading white
    space, [NaN] when there is none. *)
Definition parseFloat_string (s : string) : number :=
  match str_decimal (trim_left s) with
  | Some (v, _) => v
  | None => NaN
  end.

(** [parseInt] on a string, no radix argument: radix 16 after [0x], else 10;
    the longest run of digits; [NaN] when there is none. *)
Definition parseInt_string (s : string) : number :=
  let '(neg, r) := sign_part (trim_left s) in
  let '(radix, r') :=
    match r with
    | String "0" (String c r2) =>
        if (Ascii.eqb c "x" || Ascii.eqb c "X")%bool then (16, r2) else (10, r)
    | _ => (10, r)
    end in
  let '(v, cnt, _) := scan radix r' 0 0 in
  if cnt =? 0 then NaN
  else if v =? 0 then S754_zero neg
  else of_Z (if neg then - v else v).

(** *** Number to string *)

Definition digit_char (d : Z) : ascii := ascii_of_N (Z.to_N (48 + d)).

Fixpoint digits_aux (fuel : nat) (z : Z) (acc : string) : string :=
  match fuel with
  | O => acc
  | S f =>
      let acc' := String (digit_char (z mod 10)) acc in
      if z <? 10 then acc' else digits_aux f (z / 10) acc'
  end.

(** Decimal digits of [z >= 0]. *)
Definition digits (z : Z) : string :=
  digits_aux (S (Z.to_nat (Z.log2 z))) z "".

Fixpoint zeros (n : nat) : string :=
  match n with
  | O => ""
  | S n' => String "0" (zeros n')
  end.

(** [x < 10^n] for the positive rational [x = a / b]. *)
Definition below_pow10 (a b n : Z) : bool :=
  if 0 <=? n then a <? b * 10 ^ n else a * 10 ^ (- n) <? b.

(** The [n] with [10^(n-1) <= a/b < 10^n], searched upwards from [n]. *)
Fixpoint decade (fuel : nat) (a b n : Z) : Z :=
  match fuel with
  | O => n
  | S f => if below_pow10 a b n then n else decade f a b (n + 1)
  end.

(** For [k] digits: the [k]-digit integers [s] next to [x / 10^(n-k)] whose
    decimal [s * 10^(n-k)] rounds to [x], the nearer one first. *)
Definition shortest_at (x : number) (a b n k : Z) : option (Z * Z) :=
  let p := n - k in
  let lo := if 0 <=? p then a / (b * 10 ^ p) else (a * 10 ^ (- p)) / b in
  let hi := lo + 1 in
  let ok s := num_eqb (of_decimal false s p) x in
  (* compare 2x with (2 lo + 1) * 10^p *)
  let c := if 0 <=? p then Z.compare (2 * a) ((2 * lo + 1) * 10 ^ p * b)
           else Z.compare (2 * a * 10 ^ (- p)) ((2 * lo + 1) * b) in
  let prefer_lo := match c with Lt => true | Gt => false | Eq => Z.even lo end in
  let norm s := if s =? 10 ^ k then (10 ^ (k - 1), n + 1) else (s, n) in
  match ok lo, ok hi with
  | true, true => Some (norm (if prefer_lo then lo else hi))
  | true, false => Some (norm lo)
  | false, true => Some (norm hi)
  | false, false => None
  end.

Fixpoint shortest (fuel : nat) (x : number) (a b n k : Z) : Z * Z * Z :=
  match fuel with
  | O => (a * 10 ^ 17 / b, 17, 0)
  | S f =>
      match shortest_at x a b n k with
      | Some (s, n') => (s, k, n')
      | None => shortest f x a b n (k + 1)
      end
  end.

Definition format_digits (ds : string) (k n : Z) : string :=
  if ((k <=? n) && (n <=? 21))%bool then ds ++ zeros (Z.to_nat (n - k))
  else if ((0 <? n) && (n <=? 21))%bool then
    take (Z.to_nat n) ds ++ "." ++ drop (Z.to_nat n) ds
  else if ((-6 <? n) && (n <=? 0))%bool then
    "0." ++ zeros (Z.to_nat (- n)) ++ ds
  else
    let e := n - 1 in
    let es := (if e <? 0 then "-" else "+") ++ digits (Z.abs e) in
    if k =? 1 then ds ++ "e" ++ es
    else take 1 ds ++ "." ++ drop 1 ds ++ "e" ++ es.

(** Number::toString, radix 10: the shortest decimal that reads back as the
    same Number. *)
Definition number_to_string (x : number) : string :=
  match x with
  | S754_nan => "NaN"
  | S754_zero _ => "0"
  | S754_infinity s => if s then "-Infinity" else "Infinity"
  | S754_finite s m e =>
      let a := if 0 <=? e then Zpos m * 2 ^ e else Zpos m in
      let b := if 0 <=? e then 1 else 2 ^ (- e) in
      let n := decade 640 a b (-323) in
      let '(d, k, n') := shortest 17 (S754_finite false m e) a b n 1 in
      (if s then "-" else "") ++ format_digits (digits d) k n'
  end.

(** *** Values *)

(** The values the two files handle: [undefined], Numbers and strings (a
    string is its sequence of code units, here below 256). *)
Inductive jsval : Type :=
  | VUndef
  | VNum (n : number)
  | VStr (s : string).

Definition num (z : Z) : jsval := VNum (of_Z z).

(** ToNumber. *)
Definition to_number (v : jsval) : number :=
  match v with
  | VUndef => NaN
  | VNum n => n
  | VStr s => string_to_number s
  end.

(** ToString; also the property key a value is used as. *)
Definition to_string (v : jsval) : string :=
  match v with
  | VUndef => "undefined"
  | VNum n => number_to_string n
  | VStr s => s
  end.

(** [a == b]: a Number and a string compare as Numbers. *)
Definition loose_eq (a b : jsval) : bool :=
  match a, b with
  | VUndef, VUndef => true
  | VNum x, VNum y => num_eqb x y
  | VStr x, VStr y => String.eqb x y
  | VNum x, VStr y => num_eqb x (string_to_number y)
  | VStr x, VNum y => num_eqb (string_to_number x) y
  | _, _ => false
  end.

(** [a - b]. *)
Definition minus (a b : jsval) : jsval :=
  VNum (num_sub (to_number a) (to_number b)).

Definition parseInt (v : jsval) : number := parseInt_string (to_string v).
Definition parseFloat (v : jsval) : number := parseFloat_string (to_string v).

(** [s.substr(start, len)] and [s.substr(start)], [start] and [len] not
    negative. *)
Definition substr (s : string) (start len : nat) : string := take len (drop start s).
Definition substr_from (s : string) (start : nat) : string := drop start s.

(** The double quote, for the messages. *)
Definition dq : string := String (ascii_of_nat 34) EmptyString.

(** Names every object literal inherits from [Object.prototype]: looked up
    on an object that has no such key of its own they give a function (for
    [__proto__], the prototype itself): a truthy value with no enumerable
    keys. *)
Definition object_prototype_names : list string :=
  [ "constructor"; "__defineGetter__"; "__defineSetter__"; "hasOwnProperty";
    "__lookupGetter__"; "__lookupSetter__"; "isPrototypeOf";
    "propertyIsEnumerable"; "toString"; "valueOf"; "__proto__";
    "toLocaleString" ].

(** [o[k]] on an object literal [o], given with its own keys in order. *)
Inductive property (A : Type) : Type :=
  | Own (a : A)
  | Inherited
  | Absent.
Arguments Own {A} a.
Arguments Inherited {A}.
Arguments Absent {A}.

Fixpoint own_property {A : Type} (o : list (string * A)) (k : string) : option A :=
  match o with
  | [] => None
  | (k', a) :: o' => if String.eqb k k' then Some a else own_property o' k
  end.

Definition get_property {A : Type} (o : list (string * A)) (k : string) : property A :=
  match own_property o k with
  | Some a => Own a
  | None => if existsb (String.eqb k) object_prototype_names then Inherited else Absent
  end.

End JS.

(** ** The command table, [parse] and [set] *)

Module Command.
Import JS.

(** *** The State Store as [parse] and [set] read it

    [data.getData('actuators')] is a map from serial number to actuator; an
    actuator has its hardware code, display name, back-reference and a map of
    channels; a channel has a map of datapoints.  The data module that builds
    these objects is not among the sources: they are taken as ordinary
    objects, given here by the finite maps of their own keys.  A key that is
    not there reads as [undefined], or, when it is one of the names every
    object inherits, as the inherited function; [parse] tells the two apart
    ([actuator_of]).  In [set] a read of an actuator or of a channel goes on
    to [.channels] or [.datapoints] of what it found, which an inherited
    function does not have, and throws as it does for [undefined]; the
    datapoints [set] reads are [pm0006] and names that begin with [o], none
    of them an inherited name. *)
Record Channel : Type := { datapoints : gmap string jsval }.

Record Actuator : Type := {
  deviceId : jsval;
  typeName : jsval;
  serialNumber : jsval;
  channels : gmap string Channel
}.

Definition datapoint_of (c : Channel) (key : string) : jsval :=
  default VUndef (datapoints c !! key).

(** *** What a call does *)

(** The arguments of one [RemoteInterface.setDatapoint] call: the first
    parameter is [serialnumber + '/' + channel + '/' + datapoint], the second
    the value. *)
Record rpc : Type := {
  rpc_serialnumber : jsval;
  rpc_channel : string;
  rpc_datapoint : jsval;
  rpc_value : jsval
}.

Definition rpc_path (w : rpc) : string :=
  to_string (rpc_serialnumber w) ++ "/" ++ rpc_channel w ++ "/" ++ to_string (rpc_datapoint w).

(** The function handed to [setTimeout] in [set]: a later call of [set]. *)
Inductive callback : Type :=
  | CallSet (serialnumber : jsval) (channel : string) (datapoint value : jsval).

Inductive effect : Type :=
  | Send (w : rpc)
  | SetTimeout (f : callback) (delay : number)
  | LogError (msg : string).

(** A call returns, or throws a TypeError (a property read on [undefined]);
    either way with the effects it had. *)
Inductive outcome (A : Type) : Type :=
  | Returns (a : A) (effects : list effect)
  | Throws (effects : list effect).
Arguments Returns {A} a effects.
Arguments Throws {A} effects.

Definition effects_of {A : Type} (o : outcome A) : list effect :=
  match o with
  | Returns _ e => e
  | Throws e => e
  end.

Definition write (serialnumber : jsval) (channel : string) (datapoint value : jsval) : effect :=
  Send {| rpc_serialnumber := serialnumber; rpc_channel := channel;
          rpc_datapoint := datapoint; rpc_value := value |}.

(** What [actuators[serialnumber]] gives for a name inherited from
    [Object.prototype] that is not a key of the store: a function, truthy, with
    none of the fields of an actuator. *)
Definition inherited_member : Actuator :=
  {| deviceId := VUndef; typeName := VUndef; serialNumber := VUndef; channels := ∅ |}.

(** [actuators[serialnumber]] as the checks of [parse] see it; [None] is
    [undefined]. *)
Definition actuator_of (actuators : gmap string Actuator) (serialnumber : string)
  : option Actuator :=
  match actuators !! serialnumber with
  | Some a => Some a
  | None =>
      if existsb (String.eqb serialnumber) object_prototype_names
      then Some inherited_member else None
  end.

(** [current == 1 ? 0 : 1] *)
Definition complement (current : jsval) : jsval :=
  if loose_eq current (num 1) then num 0 else num 1.

(** [d[serialnumber].channels[channel]], [None] where the read throws. *)
Definition channel_of (d : gmap string Actuator) (serialnumber : jsval) (channel : string)
  : option Channel :=
  match d !! to_string serialnumber with
  | Some a => channels a !! channel
  | None => None
  end.

Definition set (d : gmap string Actuator) (serialnumber : jsval) (channel : string)
    (datapoint value : jsval) : outcome unit :=
  if loose_eq value (VStr "x") then
    match d !! to_string serialnumber with
    | None => Throws []
    | Some a =>
        if loose_eq (deviceId a) (VStr "9004") then
          match channels a !! channel with
          | None => Throws []
          | Some c =>
              let current := datapoint_of c "odp0006" in
              Returns tt [write serialnumber channel datapoint (complement current)]
          end
        else
          match datapoint with
          | VStr dp =>
              let look := "o" ++ substr_from dp 1 in
              match channels a !! channel with
              | None => Throws []
              | Some c =>
                  let current := datapoint_of c look in
                  Returns tt [write serialnumber channel datapoint (complement current)]
              end
          | _ => Throws []
          end
    end
  else
    match value with
    | VStr s =>
        if String.eqb (substr s 0 2) "x-" then
          let value := VStr (substr_from s 2) in
          match channel_of d serialnumber channel with
          | None => Throws []
          | Some c =>
              if (loose_eq (datapoint_of c "odp0000") (num 2) && loose_eq value (num 0)
                  || loose_eq (datapoint_of c "odp0000") (num 3) && loose_eq value (num 1))%bool
              then Returns tt [write serialnumber channel (VStr "idp0001") (num 1)]
              else Returns tt [write serialnumber channel datapoint value]
          end
        else if String.eqb (substr s 0 2) "p-" then
          let value := VStr (substr_from s 2) in
          match channel_of d serialnumber channel with
          | None => Throws []
          | Some c =>
              Returns tt
                [ SetTimeout (CallSet serialnumber channel (VStr "idp0001") (num 1))
                             (num_add (of_Z 200) (parseInt (datapoint_of c "pm0006")));
                  write serialnumber channel datapoint value ]
          end
        else if (String.eqb (substr s 0 1) "-" || String.eqb (substr s 0 1) "+")%bool then
          let changeValue :=
            num_mul (parseFloat (VStr (substr_from s 1)))
                    (if String.eqb (substr s 0 1) "-" then of_Z (-1) else of_Z 1) in
          match channel_of d serialnumber channel with
          | None => Throws []
          | Some c =>
              let value :=
                VNum (num_sub (num_add (parseFloat (datapoint_of c "odp0002")) changeValue)
                              (of_Z 21)) in
              Returns tt [write serialnumber channel datapoint value]
          end
        else Returns tt [write serialnumber channel datapoint value]
    | _ => Returns tt [write serialnumber channel datapoint value]
    end.

(** *** The command table *)

(** One entry of the table: each action has one datapoint and its value;
    [deviceIds] is there for hardware actuators only. *)
Record command : Type := {
  actions : list (string * (string * jsval));
  deviceIds : option (list string)
}.

(** The table [parse] builds on every call; two entries hold the caller's
    [value]. *)
Definition commands (value : jsval) : list (string * command) :=
  [ ("switch",
      {| actions := [ ("on", ("idp0000", num 1));
                      ("off", ("idp0000", num 0));
                      ("toggle", ("idp0000", VStr "x")) ];
         deviceIds := Some ["B002"; "100E"] |});
    ("switchgroup",
      {| actions := [ ("on", ("odp0002", num 1));
                      ("off", ("odp0002", num 0));
                      ("toggle", ("odp0002", VStr "x")) ];
         deviceIds := None |});
    ("dimmer",
      {| actions := [ ("on", ("idp0000", num 1));
                      ("off", ("idp0000", num 0));
                      ("toggle", ("idp0000", VStr "x"));
                      ("up", ("idp0001", num 9));
                      ("down", ("idp0001", num 1));
                      ("stop", ("idp0001", num 0));
                      ("set", ("idp0002", value)) ];
         deviceIds := Some ["101C"] |});
    ("shutter",
      {| actions := [ ("up", ("idp0000", num 0));
                      ("down", ("idp0000", num 1));
                      ("toggle-up", ("idp0000", VStr "x-0"));
                      ("toggle-down", ("idp0000", VStr "x-1"));
                      ("pulse-up", ("idp0000", VStr "p-0"));
                      ("pulse-down", ("idp0000", VStr "p-1"));
                      ("stop", ("idp0001", num 1)) ];
         deviceIds := Some ["B001"; "1013"] |});
    ("shuttergroup",
      {| actions := [ ("up", ("odp0003", num 0));
                      ("down", ("odp0003", num 1));
                      ("stop", ("odp0004", num 1)) ];
         deviceIds := None |});
    ("scene",
      {| actions := [ ("set", ("odp0000", num 1)) ];
         deviceIds := None |});
    ("thermostat",
      {| actions := [ ("toggle", ("idp000B", VStr "x"));
                      ("set", ("idp0007", minus value (num 21)));
                      ("up", ("idp0007", VStr "+0.5"));
                      ("down", ("idp0007", VStr "-0.5"));
                      ("on", ("idp000B", num 1));
                      ("off", ("idp000B", num 0));
                      ("eco-on", ("idp0009", num 1));
                      ("eco-off", ("idp0009", num 0)) ];
         deviceIds := None |}) ].

(** [deviceIds.indexOf(deviceId) == -1]: [indexOf] compares with [===]. *)
Definition not_listed (ids : list string) (deviceId : jsval) : bool :=
  match deviceId with
  | VStr s => negb (existsb (String.eqb s) ids)
  | _ => true
  end.

(** The four messages of the error checks. *)
Definition unknown_command (type : string) : string :=
  "unknown command: " ++ dq ++ type ++ dq.

Definition unknown_action (action type : string) : string :=
  "unknown action " ++ dq ++ action ++ dq ++ " for type " ++ dq ++ type ++ dq.

Definition not_found (serialnumber : string) : string :=
  "actuator " ++ dq ++ serialnumber ++ dq ++ " not found".

Definition wrong_type (serialnumber : string) (typeName : jsval) (type : string) : string :=
  "actuator " ++ dq ++ serialnumber ++ dq ++ " (" ++ to_string typeName
    ++ ") is not of type " ++ dq ++ type ++ dq.

(** A failed check logs its message and returns it. *)
Definition refuse (msg : string) : outcome string :=
  Returns msg [LogError ("parse " ++ msg)].

Definition confirmation (channel type : string) (serialnumber typeName : jsval)
    (action : string) (datapoint value : jsval) : string :=
  "set channel " ++ channel ++ " of " ++ type ++ " " ++ to_string serialnumber
    ++ " (" ++ to_string typeName ++ ") to " ++ action ++ ": "
    ++ to_string serialnumber ++ "/" ++ channel ++ "/" ++ to_string datapoint
    ++ ": " ++ to_string value.

Definition parse (actuators : gmap string Actuator)
    (type serialnumber channel action : string) (value : jsval) : outcome string :=
  let type := if String.eqb type "blind" then "shutter" else type in
  match get_property (commands value) type with
  | Absent => refuse (unknown_command type)
  | Inherited => Throws []
  | Own entry =>
      match get_property (actions entry) action with
      | Absent => refuse (unknown_action action type)
      | chosen =>
          match actuator_of actuators serialnumber with
          | None => refuse (not_found serialnumber)
          | Some a =>
              if match deviceIds entry with
                 | Some ids => not_listed ids (deviceId a)
                 | None => false
                 end
              then refuse (wrong_type serialnumber (typeName a) type)
              else
                let target := if String.eqb type "scene" then serialNumber a
                              else VStr serialnumber in
                let '(datapoint, value) :=
                  match chosen with
                  | Own (datapoint, value) => (VStr datapoint, value)
                  | _ => (VUndef, VUndef)
                  end in
                match set actuators target channel datapoint value with
                | Returns _ effects =>
                    Returns (confirmation channel type target (typeName a) action
                                          datapoint value) effects
                | Throws effects => Throws effects
                end
          end
      end
  end.

(** The datapoint and value the table has for an action of a type. *)
Definition table_entry (value : jsval) (type action : string) : option (string * jsval) :=
  match own_property (commands value) type with
  | Some entry => own_property (actions entry) action
  | None => None
  end.

(** *** The timers of [set] under simulated time *)

(** Truncation of a finite Number to an integer. *)
Definition trunc (x : number) : Z :=
  match x with
  | S754_finite s m e =>
      let a := if 0 <=? e then Zpos m * 2 ^ e else Zpos m / 2 ^ (- e) in
      if s then - a else a
  | _ => 0
  end.

(** The delay the runtime gives a timer: the milliseconds asked for if they
    are between 1 and 2^31 - 1, else 1. *)
Definition timeout_ms (delay : number) : Z :=
  if (num_leb (of_Z 1) delay && num_leb delay (of_Z 2147483647))%bool
  then trunc delay else 1.

(** The runtime around [set]: the time in milliseconds, the timers armed and
    not yet fired with the time each is due, and the writes sent so far with
    the time of each. *)
Record loop : Type := {
  now : Z;
  pending : list (Z * callback);
  sent : list (Z * rpc)
}.

Definition perform (l : loop) (e : effect) : loop :=
  match e with
  | Send w => {| now := now l; pending := pending l; sent := sent l ++ [(now l, w)] |}
  | SetTimeout f delay =>
      {| now := now l; pending := pending l ++ [(now l + timeout_ms delay, f)];
         sent := sent l |}
  | LogError _ => l
  end.

Definition run {A : Type} (o : outcome A) (l : loop) : loop :=
  fold_left perform (effects_of o) l.

Definition invoke (d : gmap string Actuator) (f : callback) : outcome unit :=
  match f with
  | CallSet serialnumber channel datapoint value => set d serialnumber channel datapoint value
  end.

Fixpoint remove_nth {A : Type} (i : nat) (l : list A) : list A :=
  match i, l with
  | O, _ :: l' => l'
  | S i', x :: l' => x :: remove_nth i' l'
  | _, [] => []
  end.

(** The runtime fires the [i]-th pending timer at time [t]: only a timer
    that is there, only when it is due, and time does not run backwards.  The
    callback reads the State Store [d] of that moment. *)
Definition fire (d : gmap string Actuator) (i : nat) (t : Z) (l : loop) : option loop :=
  match nth_error (pending l) i with
  | Some (due, f) =>
      if ((due <=? t) && (now l <=? t))%bool then
        Some (run (invoke d f)
                  {| now := t; pending := remove_nth i (pending l); sent := sent l |})
      else None
  | None => None
  end.

(** *** Reading [parse] and [set] *)

(** The values [set] resolves against the State Store: the conditions of its
    four branches, [value == 'x'] and the three tests on a string's head. *)
Definition symbolic (value : jsval) : bool :=
  (loose_eq value (VStr "x")
   || match value with
      | VStr s =>
          String.eqb (substr s 0 2) "x-" || String.eqb (substr s 0 2) "p-"
          || String.eqb (substr s 0 1) "-" || String.eqb (substr s 0 1) "+"
      | _ => false
      end)%bool.

(** The writes and the timers among the effects of a call. *)
Definition writes (effects : list effect) : list rpc :=
  flat_map (fun e => match e with Send w => [w] | _ => [] end) effects.

Definition timeouts (effects : list effect) : list (callback * number) :=
  flat_map (fun e => match e with SetTimeout f delay => [(f, delay)] | _ => [] end)
           effects.

(** The first statement of [parse]. *)
Definition alias (type : string) : string :=
  if String.eqb type "blind" then "shutter" else type.

(** The fourth check of [parse] passes: the type is in the table, and has no
    [deviceIds] or has the actuator's [deviceId] among them. *)
Definition allowed (value : jsval) (type : string) (a : Actuator) : bool :=
  match own_property (commands value) type with
  | Some entry =>
      match deviceIds entry with
      | Some ids => negb (not_listed ids (deviceId a))
      | None => true
      end
  | None => false
  end.

(** The serial number [parse] hands to [set]. *)
Definition target (type serialnumber : string) (a : Actuator) : jsval :=
  if String.eqb type "scene" then serialNumber a else VStr serialnumber.

End Command.

(** ** The session: stanza classification and keepalive *)

Module Sysap.
Import JS.

(** What the handler reads of an inbound stanza: [getName()], three
    attributes, and what [helper.ltx.getElementAttr(stanza, ['event',
    'items'], 'node')] gives for it. *)
Record stanza : Type := {
  name : string;
  attrs_type : jsval;
  attrs_from : jsval;
  attrs_id : jsval;
  items_node : jsval
}.

(** The three module variables.  [count] only ever holds an integer from 0 up,
    kept here as a [Z]; [lastping] is [undefined] until the first ping. *)
Record vars : Type := {
  count : Z;
  lastping : option Z;
  subscribed : bool
}.

Definition initial : vars := {| count := 0; lastping := None; subscribed := false |}.

(** [count++] on a Number holding an integer from 0 up: exact below 2^53,
    where adding 1 rounds back to 2^53. *)
Definition increment (n : Z) : Z := if n <? 2 ^ 53 then n + 1 else n.

(** The calls the handlers make: to the transport, to the timer, and to the
    collaborator [sysap_internal]; [Presence] with the answer it gave. *)
Inductive effect : Type :=
  | SendPing (id : Z)
  | SetTimeoutKeepAlive (delay : Z)
  | Subscribe
  | Update (s : stanza)
  | Status
  | Response (s : stanza)
  | Presence (s : stanza) (is_sysap : bool)
  | Subscribed
  | All
  | LogWarn (msg : string).

Definition keepAlive (v : vars) : vars * list effect :=
  let count := increment (count v) in
  ({| count := count; lastping := Some count; subscribed := subscribed v |},
   [SendPing count; SetTimeoutKeepAlive (10 * 1000)]).

(** [sysap.on('online', ...)] *)
Definition on_online (v : vars) : vars * list effect :=
  let '(v', effects) := keepAlive v in (v', (effects ++ [Subscribe])%list).

Definition lastping_value (v : vars) : jsval :=
  match lastping v with
  | Some n => num n
  | None => VUndef
  end.

Definition is_update (s : stanza) : bool :=
  String.eqb (name s) "message"
  && loose_eq (attrs_type s) (VStr "headline")
  && loose_eq (attrs_from s) (VStr "mrha@busch-jaeger.de")
  && loose_eq (items_node s) (VStr "http://abb.com/protocol/update").

Definition is_result (s : stanza) : bool :=
  String.eqb (name s) "iq"
  && loose_eq (attrs_type s) (VStr "result")
  && loose_eq (attrs_from s) (VStr "mrha@busch-jaeger.de/rpc").

Definition is_presence (s : stanza) : bool := String.eqb (name s) "presence".

(** [sysap.on('stanza', ...)]; [is_sysap] is what [sysap_internal.presence]
    answers for this stanza, asked for presence stanzas only. *)
Definition on_stanza (v : vars) (s : stanza) (is_sysap : bool) : vars * list effect :=
  if is_update s then (v, [Update s; Status])
  else if is_result s then
    if loose_eq (attrs_id s) (lastping_value v) then (v, [])
    else (v, [Response s; Status])
  else if is_presence s then
    if (is_sysap && negb (subscribed v))%bool then
      ({| count := count v; lastping := lastping v; subscribed := true |},
       [Presence s is_sysap; Subscribed; All])
    else (v, [Presence s is_sysap])
  else (v, [LogWarn "unknown stanza"]).

(** *** The session under simulated time *)

(** The module variables with the runtime around them: the time in
    milliseconds, the times at which armed [keepAlive] timers are due, and
    every call made so far with its time. *)
Record session : Type := {
  state : vars;
  clock : Z;
  timers : list Z;
  trace : list (Z * effect)
}.

Definition boot (t0 : Z) : session :=
  {| state := initial; clock := t0; timers := []; trace := [] |}.

Inductive event : Type :=
  | Online
  | Stanza (s : stanza) (is_sysap : bool)
  | Timer
  | Error.

Definition perform (r : session) (e : effect) : session :=
  {| state := state r; clock := clock r;
     timers := match e with
               | SetTimeoutKeepAlive delay => timers r ++ [clock r + delay]
               | _ => timers r
               end;
     trace := trace r ++ [(clock r, e)] |}.

Definition commit (r : session) (res : vars * list effect) : session :=
  fold_left perform (snd res)
    {| state := fst res; clock := clock r; timers := timers r; trace := trace r |}.

(** The timer due first, and the timers left once it has fired. *)
Fixpoint earliest (l : list Z) : option (Z * list Z) :=
  match l with
  | [] => None
  | t :: l' =>
      match earliest l' with
      | Some (t', rest) => if t <=? t' then Some (t, l') else Some (t', t :: rest)
      | None => Some (t, [])
      end
  end.

(** One event.  [Timer]: the timer due first fires, at the time it is due. *)
Definition step (r : session) (ev : event) : session :=
  match ev with
  | Online => commit r (on_online (state r))
  | Stanza s is_sysap => commit r (on_stanza (state r) s is_sysap)
  | Timer =>
      match earliest (timers r) with
      | Some (due, rest) =>
          commit {| state := state r; clock := Z.max (clock r) due; timers := rest;
                    trace := trace r |}
                 (keepAlive (state r))
      | None => r
      end
  | Error => r
  end.

Definition exec (evs : list event) (r : session) : session := fold_left step evs r.

(** Reading a trace. *)
Definition pings (tr : list (Z * effect)) : list (Z * Z) :=
  flat_map (fun te => match snd te with
                      | SendPing id => [(fst te, id)]
                      | _ => []
                      end) tr.

Definition is_All (e : effect) : bool :=
  match e with
  | All => true
  | _ => false
  end.

Definition refreshes (tr : list (Z * effect)) : nat :=
  length (List.filter (fun te => is_All (snd te)) tr).

(** The id of the ping sent last. *)
Definition last_ping (tr : list (Z * effect)) : option Z :=
  List.last (map (fun p => Some (snd p)) (pings tr)) None.

(** The delays of the timers a handler arms. *)
Definition armed (effects : list effect) : list Z :=
  flat_map (fun e => match e with
                     | SetTimeoutKeepAlive delay => [delay]
                     | _ => []
                     end) effects.

(** How many [Timer] events a run has. *)
Definition fired (evs : list event) : nat :=
  length (List.filter (fun ev => match ev with Timer => true | _ => false end) evs).

(** A presence stanza for which the presence handler answers yes. *)
Definition confirms (ev : event) : bool :=
  match ev with
  | Stanza s is_sysap => (is_presence s && is_sysap)%bool
  | _ => false
  end.

Definition is_Online (ev : event) : bool :=
  match ev with
  | Online => true
  | _ => false
  end.

(** The pings of a loop started at [t0]: number [i] at [t0 + 10000 i] with
    id [i + 1]. *)
Definition every_10s (t0 : Z) (n : nat) : list (Z * Z) :=
  map (fun i => (t0 + 10000 * Z.of_nat i, Z.of_nat i + 1)) (seq 0 n).

(** *** Counting in a run *)

(** How often a call was made. *)
Definition calls (p : effect -> bool) (tr : list (Z * effect)) : nat :=
  length (List.filter (fun te => p (snd te)) tr).

Definition is_Status (e : effect) : bool :=
  match e with Status => true | _ => false end.

Definition is_Update (e : effect) : bool :=
  match e with Update _ => true | _ => false end.

Definition is_Response (e : effect) : bool :=
  match e with Response _ => true | _ => false end.

Definition is_Presence (e : effect) : bool :=
  match e with Presence _ _ => true | _ => false end.

(** How many events of a kind a run has. *)
Definition events (p : event -> bool) (evs : list event) : nat :=
  length (List.filter p evs).

Definition shaped (p : stanza -> bool) (ev : event) : bool :=
  match ev with Stanza s _ => p s | _ => false end.

End Sysap.

(** ** Sample installations *)

Module Samples.
Import JS Command.

Definition shutter_serial : string := "ABB700C12345".
Definition thermostat_serial : string := "ABB700D54321".
Definition switch_serial : string := "ABB700A00007".
Definition scene_id : string := "FFFF4800000F".

(** A shutter channel: its movement status and motor delay. *)
Definition shutter_channel (odp0000 pm0006 : jsval) : Channel :=
  {| datapoints := {[ "odp0000" := odp0000; "pm0006" := pm0006 ]} |}.

Definition shutter (odp0000 pm0006 : jsval) : Actuator :=
  {| deviceId := VStr "B001"; typeName := VStr "Jalousieaktor 4-fach, REG";
     serialNumber := VUndef;
     channels := {[ "ch0003" := shutter_channel odp0000 pm0006 ]} |}.

(** A thermostat channel: the set temperature, and on. *)
Definition thermostat_channel (odp0002 : jsval) : Channel :=
  {| datapoints := {[ "odp0002" := odp0002; "odp0006" := VStr "1" ]} |}.

Definition thermostat (odp0002 : jsval) : Actuator :=
  {| deviceId := VStr "9004"; typeName := VStr "Raumtemperaturregler";
     serialNumber := VUndef;
     channels := {[ "ch0000" := thermostat_channel odp0002 ]} |}.

(** A switch channel with the state of its output. *)
Definition switch_channel (odp0000 : jsval) : Channel :=
  {| datapoints := {[ "odp0000" := odp0000 ]} |}.

Definition switch (odp0000 : jsval) : Actuator :=
  {| deviceId := VStr "B002"; typeName := VStr "Schaltaktor 4-fach, 16A, REG";
     serialNumber := VUndef;
     channels := {[ "ch0000" := switch_channel odp0000 ]} |}.

(** A scene entry, pointing back at the switch actuator that owns its
    trigger. *)
Definition scene : Actuator :=
  {| deviceId := VStr "4800"; typeName := VStr "Szene";
     serialNumber := VStr switch_serial;
     channels := ∅ |}.

Definition home (odp0000 pm0006 odp0002 : jsval) : gmap string Actuator :=
  {[ shutter_serial := shutter odp0000 pm0006;
     thermostat_serial := thermostat odp0002;
     switch_serial := switch (VStr "0");
     scene_id := scene ]}.

(** The shutter is moving up, its motor delay is 50 ms; the thermostat is set
    to 20.5 degrees. *)
Definition moving_up : gmap string Actuator := home (VStr "2") (VStr "50") (VStr "20.5").

(** The same with the shutter at rest, and Numbers in the store. *)
Definition at_rest : gmap string Actuator := home (num 0) (num 50) (VNum (of_decimal false 205 (-1))).

Definition idle : loop := {| now := 1000; pending := []; sent := [] |}.

Definition result_stanza (id : jsval) : Sysap.stanza :=
  {| Sysap.name := "iq"; Sysap.attrs_type := VStr "result";
     Sysap.attrs_from := VStr "mrha@busch-jaeger.de/rpc"; Sysap.attrs_id := id;
     Sysap.items_node := VUndef |}.

Definition presence_stanza (from : string) : Sysap.stanza :=
  {| Sysap.name := "presence"; Sysap.attrs_type := VUndef;
     Sysap.attrs_from := VStr from; Sysap.attrs_id := VUndef;
     Sysap.items_node := VUndef |}.

(** A State Store with nothing in it. *)
Definition nowhere : gmap string Actuator := ∅.

(** A dimmer (its output is on), and a shutter whose [deviceId] is held as a
    Number. *)
Definition dimmer_serial : string := "ABB700B00042".

Definition dimmer_channel : Channel :=
  {| datapoints := {[ "odp0000" := VStr "1"; "odp0002" := VStr "1" ]} |}.

Definition dimmer : Actuator :=
  {| deviceId := VStr "101C"; typeName := VStr "Dimmaktor 4-fach";
     serialNumber := VUndef;
     channels := {[ "ch0000" := dimmer_channel ]} |}.

Definition numbered : Actuator :=
  {| deviceId := num 1013; typeName := VStr "Sensor/ Jalousieaktor 1/1-fach";
     serialNumber := VUndef;
     channels := {[ "ch0003" := shutter_channel (VStr "0") (VStr "50") ]} |}.

Definition workshop : gmap string Actuator :=
  {[ dimmer_serial := dimmer; shutter_serial := numbered ]}.

(** A channel that reports nothing. *)
Definition silent_channel : Channel := {| datapoints := ∅ |}.

Definition silent : gmap string Actuator :=
  {[ shutter_serial :=
       {| deviceId := VStr "B001"; typeName := VStr "Jalousieaktor 4-fach, REG";
          serialNumber := VUndef;
          channels := {[ "ch0003" := silent_channel ]} |} ]}.

Definition update_stanza : Sysap.stanza :=
  {| Sysap.name := "message"; Sysap.attrs_type := VStr "headline";
     Sysap.attrs_from := VStr "mrha@busch-jaeger.de"; Sysap.attrs_id := VUndef;
     Sysap.items_node := VStr "http://abb.com/protocol/update" |}.

End Samples.

(** ** Facts about the embedded JavaScript values *)

Module JSFacts.
Import JS.

(** The conversions on the literals the sources use. *)
Example numbers_print_shortest :
  number_to_string (of_Z 1) = "1"
  /\ number_to_string (of_Z 250) = "250"
  /\ number_to_string (of_decimal false 205 (-1)) = "20.5"
  /\ number_to_string (of_decimal true 5 (-1)) = "-0.5"
  /\ number_to_string (num_add (of_decimal false 1 (-1)) (of_decimal false 2 (-1)))
     = "0.30000000000000004"
  /\ number_to_string (of_decimal false 1 21) = "1e+21"
  /\ number_to_string (of_decimal false 15 (-8)) = "1.5e-7".
Proof. vm_compute. repeat split. Qed.

Example strings_read_as_numbers :
  string_to_number "1" = of_Z 1
  /\ string_to_number " 2 " = of_Z 2
  /\ string_to_number "" = of_Z 0
  /\ string_to_number "0x10" = of_Z 16
  /\ string_to_number "20.5" = of_decimal false 205 (-1)
  /\ string_to_number "1e3" = of_Z 1000
  /\ string_to_number "x" = NaN
  /\ string_to_number "12px" = NaN.
Proof. vm_compute. repeat split. Qed.

Example parseInt_parseFloat_read_a_prefix :
  parseInt (VStr "50") = of_Z 50
  /\ parseInt (num 50) = of_Z 50
  /\ parseInt (VStr "50.9ms") = of_Z 50
  /\ parseInt VUndef = NaN
  /\ parseFloat (VStr "0.5") = of_decimal false 5 (-1)
  /\ parseFloat (VStr "20.5 C") = of_decimal false 205 (-1)
  /\ parseFloat (VStr "") = NaN.
Proof. vm_compute. repeat split. Qed.

Lemma num_eqb_nan_r (x : number) : num_eqb x NaN = false.
Proof. destruct x as [ | [] | | ]; reflexivity. Qed.

Lemma x_is_not_a_number : string_to_number "x" = NaN.
Proof. vm_compute. reflexivity. Qed.

(** Only the string ["x"] is [== 'x']. *)
Lemma loose_eq_x (v : jsval) : loose_eq v (VStr "x") = true <-> v = VStr "x".
Proof.
  destruct v as [ | n | s ]; cbn [loose_eq].
  - split; discriminate.
  - rewrite x_is_not_a_number, num_eqb_nan_r. split; discriminate.
  - rewrite String.eqb_eq. split; congruence.
Qed.

Lemma loose_eq_direction :
  loose_eq (VStr "0") (num 0) = true /\ loose_eq (VStr "0") (num 1) = false
  /\ loose_eq (VStr "1") (num 0) = false /\ loose_eq (VStr "1") (num 1) = true.
Proof. vm_compute. repeat split. Qed.

(** [count++] as [Sysap.increment] has it: Number addition on both sides
    of 2^53. *)
Example increment_is_number_addition :
  num_add (of_Z (2 ^ 53 - 1)) (of_Z 1) = of_Z (Sysap.increment (2 ^ 53 - 1))
  /\ num_add (of_Z (2 ^ 53)) (of_Z 1) = of_Z (Sysap.increment (2 ^ 53))
  /\ num_add (of_Z 0) (of_Z 1) = of_Z (Sysap.increment 0).
Proof. vm_compute. repeat split. Qed.

(** *** A decimal id read back as a Number *)

Lemma digit_of_digit_char (z : Z) : 0 <= z < 10 -> digit 10 (digit_char z) = Some z.
Proof.
  intros H.
  assert (Hz : z = 0 \/ z = 1 \/ z = 2 \/ z = 3 \/ z = 4 \/ z = 5 \/ z = 6 \/ z = 7
               \/ z = 8 \/ z = 9) by lia.
  repeat (destruct Hz as [ -> | Hz ]; [ reflexivity | ]). now subst.
Qed.

Lemma digits_aux_S (f : nat) (z : Z) (acc : string) :
  digits_aux (S f) z acc
  = if z <? 10 then String (digit_char (z mod 10)) acc
    else digits_aux f (z / 10) (String (digit_char (z mod 10)) acc).
Proof. reflexivity. Qed.

(** Scanning what [digits_aux] wrote gives the number back. *)
Lemma scan_digits_aux (f : nat) : forall (z : Z) (acc : string) (a c : Z),
  0 <= z < 10 ^ Z.of_nat (S f) ->
  exists k, 0 < k /\
    scan 10 (digits_aux (S f) z acc) a c = scan 10 acc (a * 10 ^ k + z) (c + k).
Proof.
  induction f as [ | f IH ]; intros z acc a c Hz; rewrite digits_aux_S.
  - change (10 ^ Z.of_nat 1) with 10 in Hz.
    destruct (z <? 10) eqn:E; [ | apply Z.ltb_ge in E; lia ].
    exists 1. split; [ lia | ]. cbn [scan].
    rewrite Z.mod_small, digit_of_digit_char by lia. f_equal; lia.
  - destruct (z <? 10) eqn:E.
    + apply Z.ltb_lt in E. exists 1. split; [ lia | ]. cbn [scan].
      rewrite Z.mod_small, digit_of_digit_char by lia. f_equal; lia.
    + apply Z.ltb_ge in E.
      assert (Hq : 0 <= z / 10 < 10 ^ Z.of_nat (S f)).
      { split; [ apply Z.div_pos; lia | ].
        apply Z.div_lt_upper_bound; [ lia | ].
        rewrite <- Z.pow_succ_r by lia. now rewrite <- Nat2Z.inj_succ. }
      destruct (IH (z / 10) (String (digit_char (z mod 10)) acc) a c Hq) as (k & Hk & ->).
      exists (k + 1). split; [ lia | ]. cbn [scan].
      rewrite digit_of_digit_char by (apply Z.mod_pos_bound; lia).
      f_equal; [ | lia ].
      rewrite Z.pow_add_r, Z.pow_1_r by lia.
      pose proof (Z.div_mod z 10 ltac:(lia)). lia.
Qed.

Lemma digits_fuel (z : Z) : 0 <= z -> z < 10 ^ Z.of_nat (S (Z.to_nat (Z.log2 z))).
Proof.
  intros Hz. rewrite Nat2Z.inj_succ, Z2Nat.id by apply Z.log2_nonneg.
  destruct (Z.eq_dec z 0) as [ -> | Hne ]; [ reflexivity | ].
  destruct (Z.log2_spec z ltac:(lia)) as [_ Hlt].
  eapply Z.lt_le_trans; [ exact Hlt | ].
  apply Z.pow_le_mono_l. lia.
Qed.

Lemma scan_digits (z : Z) :
  0 <= z -> exists k, 0 < k /\ scan 10 (digits z) 0 0 = (z, k, "").
Proof.
  intros Hz. unfold digits.
  destruct (scan_digits_aux _ z "" 0 0 (conj Hz (digits_fuel z Hz))) as (k & Hk & ->).
  exists k. split; [ exact Hk | ]. cbn [scan]. repeat f_equal; lia.
Qed.

(** What a decimal digit is not: white space, a sign, the [I] of [Infinity],
    the letter of a radix prefix. *)
Lemma decimal_char (c : ascii) (r : string) :
  digit 10 c <> None ->
  is_ws c = false
  /\ sign_part (String c r) = (false, String c r)
  /\ String.prefix "Infinity" (String c r) = false
  /\ radix_prefix (String "0" (String c r)) = None
  /\ (Ascii.eqb c "x" || Ascii.eqb c "X")%bool = false.
Proof.
  destruct c as [[] [] [] [] [] [] [] []]; intros H;
    try (exfalso; apply H; reflexivity); repeat split.
Qed.

Lemma scan_all_decimal (s : string) : forall a c z k,
  scan 10 s a c = (z, k, "") -> all_decimal s = true.
Proof.
  induction s as [ | ch r IH ]; intros a c z k H; [ reflexivity | ].
  cbn [scan all_decimal] in *. destruct (digit 10 ch); [ eauto | discriminate H ].
Qed.

Lemma all_decimal_rev_onto (s : string) : forall acc,
  all_decimal s = true -> all_decimal acc = true -> all_decimal (rev_onto s acc) = true.
Proof.
  induction s as [ | ch r IH ]; intros acc Hs Hacc; [ exact Hacc | ].
  cbn [rev_onto all_decimal] in *. destruct (digit 10 ch) eqn:E; [ | discriminate Hs ].
  apply IH; [ exact Hs | ]. cbn [all_decimal]. now rewrite E.
Qed.

Lemma trim_left_decimal (s : string) : all_decimal s = true -> trim_left s = s.
Proof.
  destruct s as [ | ch r ]; [ reflexivity | ]. cbn [all_decimal trim_left].
  destruct (digit 10 ch) eqn:E; [ | discriminate ]. intros _.
  destruct (decimal_char ch r) as (-> & _); [ congruence | reflexivity ].
Qed.

Lemma rev_onto_rev_onto (s : string) : forall a b,
  rev_onto (rev_onto s a) b = rev_onto a (s ++ b).
Proof.
  induction s as [ | ch r IH ]; intros a b; [ reflexivity | ].
  cbn [rev_onto]. now rewrite IH.
Qed.

Lemma append_empty (s : string) : s ++ "" = s.
Proof.
  induction s as [ | ch r IH ]; [ reflexivity | ].
  change (String ch (r ++ "") = String ch r). now rewrite IH.
Qed.

Lemma trim_decimal (s : string) : all_decimal s = true -> trim s = s.
Proof.
  intros H. unfold trim.
  rewrite (trim_left_decimal s H), trim_left_decimal
    by now apply all_decimal_rev_onto.
  rewrite rev_onto_rev_onto. cbn [rev_onto]. apply append_empty.
Qed.

(** The decimal digits of [z] read as the Number [z]. *)
Lemma string_to_number_digits (z : Z) : 0 <= z -> string_to_number (digits z) = of_Z z.
Proof.
  intros Hz. destruct (scan_digits z Hz) as (k & Hk & Hscan).
  pose proof (scan_all_decimal _ _ _ _ _ Hscan) as Hall.
  unfold string_to_number. rewrite (trim_decimal _ Hall).
  destruct (digits z) as [ | ch r ] eqn:Hd.
  { cbn in Hscan. injection Hscan as _ <-. lia. }
  assert (Hch : digit 10 ch <> None).
  { cbn [all_decimal] in Hall. destruct (digit 10 ch); [ discriminate | discriminate Hall ]. }
  destruct (decimal_char ch r Hch) as (_ & Hsign & Hinf & _ & _).
  assert (Hradix : radix_prefix (String ch r) = None).
  { destruct r as [ | c2 r2 ]; [ now destruct ch as [[] [] [] [] [] [] [] []] | ].
    assert (Hc2 : digit 10 c2 <> None).
    { cbn [all_decimal] in Hall. destruct (digit 10 ch); [ | discriminate Hall ].
      destruct (digit 10 c2); [ discriminate | discriminate Hall ]. }
    destruct (decimal_char c2 r2 Hc2) as (_ & _ & _ & H0 & _).
    destruct (Ascii.eqb ch "0") eqn:E0.
    - apply Ascii.eqb_eq in E0. subst ch. exact H0.
    - cbn [radix_prefix]. destruct ch as [[] [] [] [] [] [] [] []];
        try reflexivity; discriminate E0. }
  rewrite Hradix. unfold str_decimal, unsigned_decimal. rewrite Hsign, Hinf, Hscan.
  destruct (k =? 0) eqn:Ek; [ apply Z.eqb_eq in Ek; lia | ].
  cbn [exponent_part]. unfold of_decimal, of_Z.
  destruct z as [ | p | p ]; [ reflexivity | | lia ].
  cbn [Z.leb Z.compare]. now rewrite Z.pow_0_r, Z.mul_1_r.
Qed.

(** [parseInt] of the decimal digits of [z] is the Number [z]. *)
Lemma parseInt_digits (z : Z) : 0 <= z -> parseInt (VStr (digits z)) = of_Z z.
Proof.
  intros Hz. destruct (scan_digits z Hz) as (k & Hk & Hscan).
  pose proof (scan_all_decimal _ _ _ _ _ Hscan) as Hall.
  unfold parseInt, parseInt_string. cbn [to_string].
  rewrite (trim_left_decimal _ Hall).
  destruct (digits z) as [ | ch r ] eqn:Hd.
  { cbn in Hscan. injection Hscan as _ <-. lia. }
  assert (Hch : digit 10 ch <> None).
  { cbn [all_decimal] in Hall. destruct (digit 10 ch); [ discriminate | discriminate Hall ]. }
  destruct (decimal_char ch r Hch) as (_ & -> & _).
  assert (Hradix : match String ch r with
                   | String "0"%char (String c r2) =>
                       if (Ascii.eqb c "x" || Ascii.eqb c "X")%bool then (16, r2)
                       else (10, String ch r)
                   | _ => (10, String ch r)
                   end = (10, String ch r)).
  { destruct r as [ | c2 r2 ]; [ now destruct ch as [[] [] [] [] [] [] [] []] | ].
    assert (Hc2 : digit 10 c2 <> None).
    { cbn [all_decimal] in Hall. destruct (digit 10 ch); [ | discriminate Hall ].
      destruct (digit 10 c2); [ discriminate | discriminate Hall ]. }
    destruct (decimal_char c2 r2 Hc2) as (_ & _ & _ & _ & ->).
    now destruct ch as [[] [] [] [] [] [] [] []]. }
  rewrite Hradix, Hscan.
  destruct (k =? 0) eqn:Ek; [ apply Z.eqb_eq in Ek; lia | ].
  destruct (z =? 0) eqn:E0; [ apply Z.eqb_eq in E0; now subst | reflexivity ].
Qed.

(** *** Rounding an integer never gives [NaN] *)

Lemma shr_1_nonneg (mrs : shr_record) : 0 <= shr_m mrs -> 0 <= shr_m (shr_1 mrs).
Proof.
  destruct mrs as [m r s]. cbn [shr_m]. intros Hm.
  destruct m as [ | [ p | p | ] | p ]; cbn; lia.
Qed.

Lemma iter_pos_nonneg (p : positive) : forall mrs : shr_record,
  0 <= shr_m mrs -> 0 <= shr_m (SpecFloat.iter_pos shr_1 p mrs).
Proof.
  induction p as [ p IH | p IH | ]; intros mrs H; cbn [SpecFloat.iter_pos].
  - apply IH, IH, shr_1_nonneg, H.
  - apply IH, IH, H.
  - apply shr_1_nonneg, H.
Qed.

Lemma shr_fexp_nonneg (m e : Z) (l : location) :
  0 <= m -> 0 <= shr_m (fst (shr_fexp prec emax m e l)).
Proof.
  intros Hm. unfold shr_fexp, shr.
  assert (H0 : 0 <= shr_m (shr_record_of_loc m l)) by (destruct l as [ | [] ]; exact Hm).
  destruct (_ - e); cbn [fst]; [ exact H0 | | exact H0 ].
  now apply iter_pos_nonneg.
Qed.

Lemma binary_round_aux_not_nan (sx : bool) (mx ex : Z) (lx : location) :
  0 <= mx -> binary_round_aux prec emax sx mx ex lx <> S754_nan.
Proof.
  intros Hm. unfold binary_round_aux.
  pose proof (shr_fexp_nonneg mx ex lx Hm) as H1.
  destruct (shr_fexp prec emax mx ex lx) as [mrs' e']. cbn [fst] in H1.
  assert (H2 : 0 <= round_nearest_even (shr_m mrs') (loc_of_shr_record mrs')).
  { unfold round_nearest_even.
    destruct (loc_of_shr_record mrs') as [ | [] ]; try exact H1; [ | lia ].
    destruct (Z.even (shr_m mrs')); lia. }
  pose proof (shr_fexp_nonneg _ e' loc_Exact H2) as H3.
  destruct (shr_fexp prec emax _ e' loc_Exact) as [mrs'' e'']. cbn [fst] in H3.
  destruct (shr_m mrs'') as [ | m | m ]; [ discriminate | | lia ].
  destruct (e'' <=? emax - prec); discriminate.
Qed.

Lemma of_Z_not_nan (z : Z) : of_Z z <> NaN.
Proof.
  unfold of_Z, binary_normalize, binary_round.
  destruct z as [ | p | p ]; [ discriminate | | ];
    destruct (shl_align _ _ _) as [mz ez]; apply binary_round_aux_not_nan; lia.
Qed.

Lemma num_eqb_refl (x : number) : x <> NaN -> num_eqb x x = true.
Proof.
  intros Hx. unfold num_eqb, SFeqb.
  destruct x as [ s | [] | | [] m e ]; cbn [SFcompare]; try reflexivity;
    [ now destruct Hx | | ];
    now rewrite Z.compare_refl, Pos.compare_cont_refl.
Qed.

(** An id on the wire, the decimal digits of the counter, is [==] the
    counter. *)
Lemma echoed_id_is_equal (n : Z) : 0 <= n -> loose_eq (VStr (digits n)) (num n) = true.
Proof.
  intros Hn. unfold num. cbn [loose_eq].
  rewrite string_to_number_digits by exact Hn. apply num_eqb_refl, of_Z_not_nan.
Qed.

(** *** Whole numbers below 2^53

    They are Numbers, and are added and compared without rounding. *)

Lemma digits2_bounds (p : positive) :
  2 ^ (Zpos (digits2_pos p) - 1) <= Zpos p < 2 ^ Zpos (digits2_pos p).
Proof.
  induction p as [ p IH | p IH | ]; cbn [digits2_pos].
  - rewrite Pos2Z.inj_succ.
    replace (Z.succ (Zpos (digits2_pos p)) - 1) with (Z.succ (Zpos (digits2_pos p) - 1)) by lia.
    rewrite !Z.pow_succ_r by lia. lia.
  - rewrite Pos2Z.inj_succ.
    replace (Z.succ (Zpos (digits2_pos p)) - 1) with (Z.succ (Zpos (digits2_pos p) - 1)) by lia.
    rewrite !Z.pow_succ_r by lia. lia.
  - cbn. lia.
Qed.

Lemma digits2_le (p : positive) (d : Z) : Zpos p < 2 ^ d -> Zpos (digits2_pos p) <= d.
Proof.
  intros H. destruct (Z.le_gt_cases (Zpos (digits2_pos p)) d) as [ | Hgt ]; [ assumption | ].
  pose proof (digits2_bounds p) as [Hlo _].
  assert (2 ^ d <= 2 ^ (Zpos (digits2_pos p) - 1)) by (apply Z.pow_le_mono_r; lia).
  lia.
Qed.

Lemma iter_xO_Z (m p : positive) : Zpos (Pos.iter xO m p) = Zpos m * 2 ^ Zpos p.
Proof.
  induction p as [ | p IH ] using Pos.peano_ind.
  - cbn. lia.
  - rewrite Pos.iter_succ, Pos2Z.inj_succ, Z.pow_succ_r by lia.
    rewrite Pos2Z.inj_xO, IH. lia.
Qed.

Lemma iter_xO_digits (m p : positive) :
  Zpos (digits2_pos (Pos.iter xO m p)) = Zpos (digits2_pos m) + Zpos p.
Proof.
  induction p as [ | p IH ] using Pos.peano_ind.
  - cbn [Pos.iter digits2_pos]. lia.
  - rewrite Pos.iter_succ. cbn [digits2_pos]. rewrite Pos2Z.inj_succ, IH. lia.
Qed.

Lemma scaled_digits (q : positive) (K : Z) :
  0 <= K ->
  Zpos (digits2_pos (Z.to_pos (Zpos q * 2 ^ K))) = Zpos (digits2_pos q) + K.
Proof.
  intros HK. destruct K as [ | p | p ]; [ | | lia ].
  - rewrite Z.pow_0_r, Z.mul_1_r. cbn. lia.
  - rewrite <- iter_xO_Z. cbn [Z.to_pos]. apply iter_xO_digits.
Qed.

Lemma iter_pos_iter {A : Type} (f : A -> A) (p : positive) (x : A) :
  SpecFloat.iter_pos f p x = Pos.iter f x p.
Proof.
  revert x. induction p as [ p IH | p IH | ]; intros x; cbn [SpecFloat.iter_pos Pos.iter].
  - rewrite !IH, !Pos.iter_swap. reflexivity.
  - rewrite !IH. reflexivity.
  - reflexivity.
Qed.

Lemma shr_exact (M p : positive) :
  SpecFloat.iter_pos shr_1 p
    {| shr_m := Zpos (Pos.iter xO M p); shr_r := false; shr_s := false |}
  = {| shr_m := Zpos M; shr_r := false; shr_s := false |}.
Proof.
  rewrite iter_pos_iter. induction p as [ | p IH ] using Pos.peano_ind.
  - reflexivity.
  - rewrite !Pos.iter_succ, <- Pos.iter_swap. cbn [shr_1 orb]. exact IH.
Qed.

Lemma fexp_small (e : Z) : -1021 <= e -> fexp prec emax e = e - 53.
Proof. intros H. unfold fexp, emin, prec, emax. lia. Qed.

Lemma round_aux_canonical (M : positive) (E : Z) :
  Zpos (digits2_pos M) = 53 -> -1074 <= E <= 971 ->
  binary_round_aux prec emax false (Zpos M) E loc_Exact = S754_finite false M E.
Proof.
  intros HM HE.
  assert (Hshr : shr_fexp prec emax (Zpos M) E loc_Exact
                 = ({| shr_m := Zpos M; shr_r := false; shr_s := false |}, E)).
  { unfold shr_fexp. cbn [Zdigits2 shr_record_of_loc]. rewrite HM, fexp_small by lia.
    replace (53 + E - 53 - E) with 0 by lia. reflexivity. }
  unfold binary_round_aux. rewrite Hshr.
  cbn [shr_m loc_of_shr_record round_nearest_even]. rewrite Hshr. cbn [shr_m].
  replace (E <=? emax - prec) with true; [ reflexivity | ].
  symmetry. apply Z.leb_le. unfold emax, prec. lia.
Qed.

Lemma round_aux_shifted (M p : positive) (E : Z) :
  Zpos (digits2_pos M) = 53 -> -1074 <= E <= 971 ->
  binary_round_aux prec emax false (Zpos (Pos.iter xO M p)) (E - Zpos p) loc_Exact
  = S754_finite false M E.
Proof.
  intros HM HE. pose proof (round_aux_canonical M E HM HE) as Hcanon.
  unfold binary_round_aux in *.
  assert (Hshr : shr_fexp prec emax (Zpos (Pos.iter xO M p)) (E - Zpos p) loc_Exact
                 = ({| shr_m := Zpos M; shr_r := false; shr_s := false |}, E)).
  { unfold shr_fexp. cbn [Zdigits2 shr_record_of_loc].
    rewrite iter_xO_digits, HM, fexp_small by lia.
    replace (53 + Zpos p + (E - Zpos p) - 53 - (E - Zpos p)) with (Zpos p) by lia.
    cbn [shr]. rewrite shr_exact. f_equal. lia. }
  rewrite Hshr. cbn [shr_m loc_of_shr_record round_nearest_even].
  assert (Hshr' : shr_fexp prec emax (Zpos M) E loc_Exact
                 = ({| shr_m := Zpos M; shr_r := false; shr_s := false |}, E)).
  { unfold shr_fexp. cbn [Zdigits2 shr_record_of_loc]. rewrite HM, fexp_small by lia.
    replace (53 + E - 53 - E) with 0 by lia. reflexivity. }
  rewrite Hshr'. cbn [shr_m].
  replace (E <=? emax - prec) with true; [ reflexivity | ].
  symmetry. apply Z.leb_le. unfold emax, prec. lia.
Qed.

(** The Number of a positive integer below 2^53, given with any scaling. *)
Lemma round_integer (q : positive) (K : Z) :
  0 <= K -> Zpos (digits2_pos q) <= 53 ->
  binary_round prec emax false (Z.to_pos (Zpos q * 2 ^ K)) (- K)
  = S754_finite false (Z.to_pos (Zpos q * 2 ^ (53 - Zpos (digits2_pos q))))
                (Zpos (digits2_pos q) - 53).
Proof.
  intros HK Hq. set (d := Zpos (digits2_pos q)) in *.
  assert (Hd : 1 <= d) by (unfold d; lia).
  assert (HM : Zpos (digits2_pos (Z.to_pos (Zpos q * 2 ^ (53 - d)))) = 53)
    by (rewrite scaled_digits by lia; fold d; lia).
  unfold binary_round. rewrite scaled_digits by lia. fold d.
  rewrite fexp_small by lia. replace (d + K + - K - 53) with (d - 53) by lia.
  unfold shl_align.
  destruct (d - 53 - - K) as [ | p | p ] eqn:Hp.
  - replace K with (53 - d) by lia. replace (- (53 - d)) with (d - 53) by lia.
    apply round_aux_canonical; [ exact HM | lia ].
  - replace (- K) with (d - 53 - Zpos p) by lia.
    replace (Z.to_pos (Zpos q * 2 ^ K))
      with (Pos.iter xO (Z.to_pos (Zpos q * 2 ^ (53 - d))) p).
    + apply round_aux_shifted; [ exact HM | lia ].
    + apply Pos2Z.inj. rewrite iter_xO_Z, !Z2Pos.id by (apply Z.mul_pos_pos; [ lia | apply Z.pow_pos_nonneg; lia ]).
      replace K with (53 - d + Zpos p) by lia. rewrite Z.pow_add_r by lia. lia.
  - replace (Pos.iter xO (Z.to_pos (Zpos q * 2 ^ K)) p)
      with (Z.to_pos (Zpos q * 2 ^ (53 - d))).
    + apply round_aux_canonical; [ exact HM | lia ].
    + apply Pos2Z.inj. rewrite iter_xO_Z, !Z2Pos.id by (apply Z.mul_pos_pos; [ lia | apply Z.pow_pos_nonneg; lia ]).
      replace (53 - d) with (K + Zpos p) by lia. rewrite Z.pow_add_r by lia. lia.
Qed.

Lemma scaled_positive (q : positive) (k : Z) : 0 <= k -> 0 < Zpos q * 2 ^ k.
Proof. intros H. apply Z.mul_pos_pos; [ lia | apply Z.pow_pos_nonneg; lia ]. Qed.

Lemma of_Z_positive (q : positive) :
  Zpos q < 2 ^ 53 ->
  of_Z (Zpos q)
  = S754_finite false (Z.to_pos (Zpos q * 2 ^ (53 - Zpos (digits2_pos q))))
                (Zpos (digits2_pos q) - 53).
Proof.
  intros H. pose proof (round_integer q 0 (Z.le_refl 0) (digits2_le q 53 H)) as R.
  rewrite Z.pow_0_r, Z.mul_1_r in R. exact R.
Qed.

Lemma shl_align_fst (M : positive) (E ez : Z) :
  ez <= E -> Zpos (fst (shl_align M E ez)) = Zpos M * 2 ^ (E - ez).
Proof.
  intros H. unfold shl_align. destruct (ez - E) as [ | p | p ] eqn:Hp; cbn [fst].
  - replace (E - ez) with 0 by lia. rewrite Z.pow_0_r. lia.
  - lia.
  - rewrite iter_xO_Z. do 2 f_equal. lia.
Qed.

(** Integers add without rounding as long as the sum is below 2^53. *)
Lemma add_integers (a b : positive) :
  Zpos a + Zpos b < 2 ^ 53 ->
  num_add (of_Z (Zpos a)) (of_Z (Zpos b)) = of_Z (Zpos a + Zpos b).
Proof.
  intros H.
  assert (Hab : Zpos (a + b) < 2 ^ 53) by (rewrite Pos2Z.inj_add; exact H).
  rewrite (of_Z_positive a), (of_Z_positive b) by lia.
  change (Zpos a + Zpos b) with (Zpos (a + b)). rewrite (of_Z_positive (a + b)) by exact Hab.
  pose proof (digits2_le a 53 ltac:(lia)) as Ha.
  pose proof (digits2_le b 53 ltac:(lia)) as Hb.
  pose proof (digits2_le (a + b) 53 Hab) as Hc.
  set (da := Zpos (digits2_pos a)) in *. set (db := Zpos (digits2_pos b)) in *.
  assert (Hda : 1 <= da) by (unfold da; lia). assert (Hdb : 1 <= db) by (unfold db; lia).
  unfold num_add, SFadd. cbn [cond_Zopp].
  set (K := - Z.min (da - 53) (db - 53)).
  assert (HK : 0 <= K) by lia.
  replace (Z.min (da - 53) (db - 53)) with (- K) by lia.
  rewrite !shl_align_fst by lia.
  rewrite !Z2Pos.id by (apply scaled_positive; lia).
  replace (Zpos a * 2 ^ (53 - da) * 2 ^ (da - 53 - - K)
           + Zpos b * 2 ^ (53 - db) * 2 ^ (db - 53 - - K))
    with (Zpos (Z.to_pos (Zpos (a + b) * 2 ^ K))).
  - cbn [binary_normalize]. apply round_integer; [ exact HK | exact Hc ].
  - rewrite Z2Pos.id by (apply scaled_positive; lia).
    rewrite <- !Z.mul_assoc, <- !Z.pow_add_r by lia.
    replace (53 - da + (da - 53 - - K)) with K by lia.
    replace (53 - db + (db - 53 - - K)) with K by lia.
    rewrite Pos2Z.inj_add. lia.
Qed.

(** Integers below 2^53 compare as Numbers the way they compare. *)
Lemma leb_integers (a b : positive) :
  Zpos a < 2 ^ 53 -> Zpos b < 2 ^ 53 ->
  num_leb (of_Z (Zpos a)) (of_Z (Zpos b)) = (Zpos a <=? Zpos b).
Proof.
  intros Ha Hb. rewrite (of_Z_positive a), (of_Z_positive b) by assumption.
  pose proof (digits2_le a 53 Ha) as Hda. pose proof (digits2_le b 53 Hb) as Hdb.
  pose proof (digits2_bounds a) as [Halo Hahi]. pose proof (digits2_bounds b) as [Hblo Hbhi].
  set (da := Zpos (digits2_pos a)) in *. set (db := Zpos (digits2_pos b)) in *.
  unfold num_leb, SFleb, SFcompare.
  destruct (Z.compare_spec (da - 53) (db - 53)) as [ Heq | Hlt | Hgt ].
  - assert (Hd : db = da) by lia. rewrite Hd.
    change (Pos.compare_cont Eq ?x ?y) with (Pos.compare x y).
    rewrite Pos2Z.inj_compare, !Z2Pos.id by (apply scaled_positive; lia).
    assert (HP : 0 < 2 ^ (53 - da)) by (apply Z.pow_pos_nonneg; lia).
    generalize dependent (2 ^ (53 - da)). intros P HP.
    destruct (Z.compare_spec (Zpos a * P) (Zpos b * P)); destruct (Z.leb_spec (Zpos a) (Zpos b));
      try reflexivity; nia.
  - assert (2 ^ da <= 2 ^ (db - 1)) by (apply Z.pow_le_mono_r; lia).
    symmetry. apply Z.leb_le. lia.
  - assert (2 ^ db <= 2 ^ (da - 1)) by (apply Z.pow_le_mono_r; lia).
    symmetry. apply Z.leb_gt. lia.
Qed.

End JSFacts.

(** ** What [set] sends *)

Module CommandFacts.
Import JS Command Samples JSFacts.

(** *** The branches of [set], one lemma each *)

Section Branches.
Variable d : gmap string Actuator.
Variables (serialnumber : jsval) (channel : string) (datapoint : jsval).

(** A Number or [undefined] is sent as it is. *)
Lemma set_literal (value : jsval) :
  (forall s, value <> VStr s) ->
  set d serialnumber channel datapoint value
  = Returns tt [write serialnumber channel datapoint value].
Proof.
  intros Hv. unfold set.
  destruct (loose_eq value (VStr "x")) eqn:Hx.
  - apply loose_eq_x in Hx. now destruct (Hv "x").
  - destruct value as [ | n | s ]; try reflexivity. now destruct (Hv s).
Qed.

Lemma set_toggle_thermostat (a : Actuator) (c : Channel) :
  d !! to_string serialnumber = Some a ->
  channels a !! channel = Some c ->
  loose_eq (deviceId a) (VStr "9004") = true ->
  set d serialnumber channel datapoint (VStr "x")
  = Returns tt [write serialnumber channel datapoint
                      (complement (datapoint_of c "odp0006"))].
Proof.
  intros Ha Hc Hid. unfold set. cbn [loose_eq String.eqb Ascii.eqb Bool.eqb].
  now rewrite Ha, Hid, Hc.
Qed.

Lemma set_movement (s : string) (c : Channel) :
  channel_of d serialnumber channel = Some c ->
  set d serialnumber channel datapoint (VStr (String "x" (String "-" s)))
  = Returns tt
      [ if (loose_eq (datapoint_of c "odp0000") (num 2) && loose_eq (VStr s) (num 0)
            || loose_eq (datapoint_of c "odp0000") (num 3) && loose_eq (VStr s) (num 1))%bool
        then write serialnumber channel (VStr "idp0001") (num 1)
        else write serialnumber channel datapoint (VStr s) ].
Proof.
  intros Hc. unfold set, substr, substr_from.
  cbn [loose_eq take drop String.eqb Ascii.eqb Bool.eqb].
  rewrite Hc. now destruct (_ || _)%bool.
Qed.

Lemma set_pulse (s : string) (c : Channel) :
  channel_of d serialnumber channel = Some c ->
  set d serialnumber channel datapoint (VStr (String "p" (String "-" s)))
  = Returns tt
      [ SetTimeout (CallSet serialnumber channel (VStr "idp0001") (num 1))
                   (num_add (of_Z 200) (parseInt (datapoint_of c "pm0006")));
        write serialnumber channel datapoint (VStr s) ].
Proof.
  intros Hc. unfold set, substr, substr_from.
  cbn [loose_eq take drop String.eqb Ascii.eqb Bool.eqb].
  now rewrite Hc.
Qed.

Lemma set_delta (negative : bool) (m : string) (c : Channel) :
  channel_of d serialnumber channel = Some c ->
  set d serialnumber channel datapoint
      (VStr (String (if negative then "-" else "+")%char m))
  = Returns tt
      [ write serialnumber channel datapoint
          (VNum (num_sub
                   (num_add (parseFloat (datapoint_of c "odp0002"))
                            (num_mul (parseFloat (VStr m))
                                     (of_Z (if negative then -1 else 1))))
                   (of_Z 21))) ].
Proof.
  intros Hc. unfold set, substr, substr_from.
  destruct negative; cbn [loose_eq take drop String.eqb Ascii.eqb Bool.eqb orb];
    now rewrite Hc.
Qed.

End Branches.

(** The function the pulse branch hands to [setTimeout] sends the stop write,
    whatever the State Store holds by then. *)
Lemma stop_callback (d : gmap string Actuator) (serialnumber : jsval) (channel : string) :
  invoke d (CallSet serialnumber channel (VStr "idp0001") (num 1))
  = Returns tt [write serialnumber channel (VStr "idp0001") (num 1)].
Proof. apply set_literal. discriminate. Qed.

(** *** The timer list *)

Lemma remove_nth_last {A : Type} (l : list A) (x : A) :
  remove_nth (length l) (l ++ [x]) = l.
Proof. induction l as [ | y l IH ]; cbn; [ reflexivity | now rewrite IH ]. Qed.

Lemma nth_error_last {A : Type} (l : list A) (x : A) :
  nth_error (l ++ [x]) (length l) = Some x.
Proof. induction l as [ | y l IH ]; cbn; [ reflexivity | exact IH ]. Qed.

(** *** Movement toggle *)

(** C1, as the specification states it, fails: with the shutter moving up
    ([odp0000 = 2]) a toggle-down request is not rewritten to a stop; the
    down command [idp0000 = 1] goes out. *)
Lemma opposite_motion_is_not_stopped :
  set moving_up (VStr shutter_serial) "ch0003" (VStr "idp0000") (VStr "x-1")
  = Returns tt [write (VStr shutter_serial) "ch0003" (VStr "idp0000") (VStr "1")]
  /\ set moving_up (VStr shutter_serial) "ch0003" (VStr "idp0000") (VStr "x-1")
     <> Returns tt [write (VStr shutter_serial) "ch0003" (VStr "idp0001") (num 1)].
Proof. vm_compute. split; [ reflexivity | discriminate ]. Qed.

(** C1 (amended). A movement toggle ([x-0] up, [x-1] down) is rewritten to
    the stop write [idp0001 = 1] exactly when [odp0000] shows motion in the
    requested direction (2 for up, 3 for down); otherwise, at rest or moving
    the other way, the datapoint given and the direction digit are sent
    unchanged. *)
Theorem movement_toggle (d : gmap string Actuator) (serialnumber : jsval)
    (channel : string) (datapoint : jsval) (c : Channel) (down : bool) :
  channel_of d serialnumber channel = Some c ->
  set d serialnumber channel datapoint (VStr (if down then "x-1" else "x-0"))
  = Returns tt
      [ if loose_eq (datapoint_of c "odp0000") (num (if down then 3 else 2))
        then write serialnumber channel (VStr "idp0001") (num 1)
        else write serialnumber channel datapoint (VStr (if down then "1" else "0")) ].
Proof.
  intros Hc. destruct loose_eq_direction as (H00 & H01 & H10 & H11).
  destruct down; rewrite (set_movement _ _ _ _ _ _ Hc).
  - rewrite H10, H11, andb_false_r, andb_true_r. reflexivity.
  - rewrite H00, H01, andb_false_r, andb_true_r, orb_false_r. reflexivity.
Qed.

Lemma movement_toggle_witness :
  channel_of moving_up (VStr shutter_serial) "ch0003"
    = Some (shutter_channel (VStr "2") (VStr "50"))
  /\ set moving_up (VStr shutter_serial) "ch0003" (VStr "idp0000") (VStr "x-0")
     = Returns tt [write (VStr shutter_serial) "ch0003" (VStr "idp0001") (num 1)]
  /\ set moving_up (VStr shutter_serial) "ch0003" (VStr "idp0000") (VStr "x-1")
     = Returns tt [write (VStr shutter_serial) "ch0003" (VStr "idp0000") (VStr "1")].
Proof.
  assert (Hc : channel_of moving_up (VStr shutter_serial) "ch0003"
               = Some (shutter_channel (VStr "2") (VStr "50")))
    by (vm_compute; reflexivity).
  split; [ exact Hc | split ].
  - exact (movement_toggle moving_up (VStr shutter_serial) "ch0003" (VStr "idp0000")
             _ false Hc).
  - exact (movement_toggle moving_up (VStr shutter_serial) "ch0003" (VStr "idp0000")
             _ true Hc).
Defined.

(** The first parameter of that call on the wire. *)
Example path_of_the_down_command :
  rpc_path {| rpc_serialnumber := VStr shutter_serial; rpc_channel := "ch0003";
              rpc_datapoint := VStr "idp0000"; rpc_value := VStr "1" |}
  = "ABB700C12345/ch0003/idp0000".
Proof. reflexivity. Qed.

(** At rest the down command goes out as it is. *)
Example toggle_down_at_rest :
  set at_rest (VStr shutter_serial) "ch0003" (VStr "idp0000") (VStr "x-1")
  = Returns tt [write (VStr shutter_serial) "ch0003" (VStr "idp0000") (VStr "1")].
Proof. vm_compute. reflexivity. Qed.

(** *** Pulse *)

(** C2, as the specification states it, fails: a pulse request does send a
    write at once, the direction on the datapoint given. *)
Lemma pulse_sends_at_once :
  sent (run (set moving_up (VStr shutter_serial) "ch0003" (VStr "idp0000") (VStr "p-1"))
            idle)
  = [(1000, {| rpc_serialnumber := VStr shutter_serial; rpc_channel := "ch0003";
               rpc_datapoint := VStr "idp0000"; rpc_value := VStr "1" |})]
  /\ sent (run (set moving_up (VStr shutter_serial) "ch0003" (VStr "idp0000")
                    (VStr "p-1")) idle)
     <> sent idle.
Proof. vm_compute. split; [ reflexivity | discriminate ]. Qed.

(** With the motor delay in the store as decimal digits, the delay asked for
    is 200 plus that number. *)
Lemma pulse_delay (c : Channel) (D : Z) :
  0 <= D ->
  datapoints c !! "pm0006" = Some (VStr (digits D)) ->
  num_add (of_Z 200) (parseInt (datapoint_of c "pm0006")) = num_add (of_Z 200) (of_Z D).
Proof.
  intros HD Hpm. unfold datapoint_of. rewrite Hpm. cbn [default from_option id].
  now rewrite parseInt_digits.
Qed.

(** Truncation gives a whole number back. *)
Lemma trunc_integer (q : positive) : Zpos q < 2 ^ 53 -> trunc (of_Z (Zpos q)) = Zpos q.
Proof.
  intros H. rewrite (of_Z_positive q) by exact H.
  pose proof (digits2_le q 53 H) as Hd. set (d := Zpos (digits2_pos q)) in *.
  assert (Hd1 : 1 <= d) by (unfold d; lia).
  unfold trunc. rewrite Z2Pos.id by (apply scaled_positive; lia).
  destruct (Z.leb_spec 0 (d - 53)).
  - replace (53 - d) with 0 by lia. replace (d - 53) with 0 by lia.
    rewrite Z.pow_0_r. lia.
  - replace (- (d - 53)) with (53 - d) by lia.
    apply Z.div_mul. apply Z.pow_nonzero; lia.
Qed.

(** The delay the runtime keeps for a whole number of milliseconds. *)
Lemma timeout_integer (n : Z) :
  1 <= n < 2 ^ 53 -> timeout_ms (of_Z n) = if n <=? 2147483647 then n else 1.
Proof.
  intros [Hlo Hhi]. destruct n as [ | q | q ]; [ lia | | lia ].
  unfold timeout_ms.
  rewrite (leb_integers 1 q), (leb_integers q 2147483647), trunc_integer by (cbn; lia).
  replace (1 <=? Zpos q) with true by (symmetry; apply Z.leb_le; lia).
  reflexivity.
Qed.

Lemma delay_integer (D : Z) :
  0 <= D -> 200 + D < 2 ^ 53 -> num_add (of_Z 200) (of_Z D) = of_Z (200 + D).
Proof.
  intros HD H. destruct D as [ | q | q ]; [ reflexivity | | lia ].
  apply (add_integers 200 q). exact H.
Qed.

(** C2 (amended). A pulse request ([p-0], [p-1]) sends the direction digit on
    the datapoint given at once, and arms exactly one timer, asking for
    [200 + parseInt(pm0006)] milliseconds.  The runtime keeps that delay
    (in whole milliseconds) when it is between 1 and 2^31 - 1, and takes 1
    millisecond when it is not (a larger sum, or [NaN]); the timer cannot fire
    before the delay so kept has passed, and when it fires it sends the stop
    write [idp0001 = 1] and nothing else.  With [pm0006] the decimal numeral
    of a whole number [D >= 0] the delay kept is [200 + D] milliseconds up to
    [D = 2^31 - 201], and 1 millisecond for a larger [D] (stated up to the
    whole numbers that are exact as Numbers). *)
Theorem pulse (d : gmap string Actuator) (serialnumber : jsval) (channel : string)
    (datapoint : jsval) (c : Channel) (down : bool) (l : loop) :
  channel_of d serialnumber channel = Some c ->
  let delay := num_add (of_Z 200) (parseInt (datapoint_of c "pm0006")) in
  let direction := {| rpc_serialnumber := serialnumber; rpc_channel := channel;
                      rpc_datapoint := datapoint;
                      rpc_value := VStr (if down then "1" else "0") |} in
  let stop := {| rpc_serialnumber := serialnumber; rpc_channel := channel;
                 rpc_datapoint := VStr "idp0001"; rpc_value := num 1 |} in
  let l' := run (set d serialnumber channel datapoint
                     (VStr (if down then "p-1" else "p-0"))) l in
  now l' = now l
  /\ sent l' = (sent l ++ [(now l, direction)])%list
  /\ pending l'
     = (pending l ++ [(now l + timeout_ms delay,
                       CallSet serialnumber channel (VStr "idp0001") (num 1))])%list
  /\ (forall (d' : gmap string Actuator) (t : Z) (l'' : loop),
       fire d' (length (pending l)) t l' = Some l'' <->
       now l + timeout_ms delay <= t /\ now l <= t
       /\ l'' = {| now := t; pending := pending l; sent := (sent l' ++ [(t, stop)])%list |})
  /\ timeout_ms delay
     = (if (num_leb (of_Z 1) delay && num_leb delay (of_Z (2 ^ 31 - 1)))%bool
        then trunc delay else 1)
  /\ (forall D : Z,
        datapoints c !! "pm0006" = Some (VStr (digits D)) ->
        0 <= D -> 200 + D < 2 ^ 53 ->
        timeout_ms delay = if 200 + D <=? 2 ^ 31 - 1 then 200 + D else 1).
Proof.
  intros Hc delay direction stop l'.
  assert (Hl' : l' = {| now := now l;
                        pending := (pending l ++ [(now l + timeout_ms delay,
                          CallSet serialnumber channel (VStr "idp0001") (num 1))])%list;
                        sent := (sent l ++ [(now l, direction)])%list |}).
  { unfold l'. destruct down; rewrite (set_pulse _ _ _ _ _ _ Hc); reflexivity. }
  rewrite Hl'. cbn [now sent pending].
  split; [ reflexivity | split; [ reflexivity | split; [ reflexivity | ] ] ].
  split; [ | split; [ reflexivity | ] ].
  2: { intros D Hpm HD Hexact. unfold delay.
       rewrite (pulse_delay c D HD Hpm), (delay_integer D HD Hexact).
       apply timeout_integer. lia. }
  intros d' t l''. unfold fire. cbn [now sent pending].
  rewrite nth_error_last, remove_nth_last, stop_callback.
  destruct (now l + timeout_ms delay <=? t) eqn:Hdue;
    destruct (now l <=? t) eqn:Hnow; cbn [andb];
    rewrite ?Z.leb_le, ?Z.leb_gt in Hdue, Hnow.
  - split.
    + intros [= <-]. repeat split; assumption.
    + intros (_ & _ & ->). reflexivity.
  - split; [ discriminate | intros (_ & Hle & _); lia ].
  - split; [ discriminate | intros (Hle & _ & _); lia ].
  - split; [ discriminate | intros (Hle & _ & _); lia ].
Qed.

Lemma pulse_witness :
  channel_of moving_up (VStr shutter_serial) "ch0003"
    = Some (shutter_channel (VStr "2") (VStr "50"))
  /\ let l' := run (set moving_up (VStr shutter_serial) "ch0003" (VStr "idp0000")
                        (VStr "p-1")) idle in
     sent l' = [(1000, {| rpc_serialnumber := VStr shutter_serial;
                          rpc_channel := "ch0003"; rpc_datapoint := VStr "idp0000";
                          rpc_value := VStr "1" |})]
     /\ pending l' = [(1250, CallSet (VStr shutter_serial) "ch0003" (VStr "idp0001")
                                     (num 1))]
     /\ timeout_ms (num_add (of_Z 200)
                      (parseInt (datapoint_of (shutter_channel (VStr "2") (VStr "50"))
                                              "pm0006"))) = 250.
Proof.
  assert (Hc : channel_of moving_up (VStr shutter_serial) "ch0003"
               = Some (shutter_channel (VStr "2") (VStr "50")))
    by (vm_compute; reflexivity).
  split; [ exact Hc | ].
  destruct (pulse moving_up (VStr shutter_serial) "ch0003" (VStr "idp0000") _ true idle Hc)
    as (_ & Hsent & Hpending & _ & _ & Hdelay).
  split; [ exact Hsent | ].
  split; [ etransitivity; [ exact Hpending | vm_compute; reflexivity ] | ].
  apply (Hdelay 50); [ vm_compute; reflexivity | lia | lia ].
Defined.

(** The two ends of the range, for a call at time 1000: with the motor delay
    2147483447 the stop is due 2^31 - 1 milliseconds after the call, with
    2147483448 one millisecond after it; so it is with -200, where the sum
    is 0. *)
Example pulse_delay_beyond_the_range :
  let due pm0006 :=
    map fst (pending (run (set (home (VStr "0") (VStr pm0006) VUndef) (VStr shutter_serial)
                               "ch0003" (VStr "idp0000") (VStr "p-0")) idle)) in
  due "50" = [1000 + 250]
  /\ due "2147483447" = [1000 + 2147483647]
  /\ due "2147483448" = [1000 + 1]
  /\ due "-199" = [1000 + 1]
  /\ due "-200" = [1000 + 1].
Proof. vm_compute. repeat split. Qed.

(** *** Toggle *)

(** The datapoint a toggle reads: [odp0006] for the thermostat, else the
    datapoint given with its first character replaced by [o]. *)
Lemma set_toggle (d : gmap string Actuator) (serialnumber : jsval) (channel : string)
    (datapoint : jsval) (a : Actuator) (c : Channel) :
  d !! to_string serialnumber = Some a ->
  channels a !! channel = Some c ->
  (loose_eq (deviceId a) (VStr "9004") = false -> exists dp, datapoint = VStr dp) ->
  set d serialnumber channel datapoint (VStr "x")
  = Returns tt
      [ write serialnumber channel datapoint
          (complement
             (datapoint_of c
                (if loose_eq (deviceId a) (VStr "9004") then "odp0006"
                 else match datapoint with
                      | VStr (String _ rest) => String "o" rest
                      | _ => "o"
                      end))) ].
Proof.
  intros Ha Hc Hdp. unfold set. cbn [loose_eq String.eqb Ascii.eqb Bool.eqb].
  rewrite Ha, Hc. destruct (loose_eq (deviceId a) (VStr "9004")); [ reflexivity | ].
  destruct (Hdp eq_refl) as [dp ->]. now destruct dp.
Qed.

(** C3. A toggle ([x]) sends, on the datapoint given, the complement of the
    channel's [odp0006] when the actuator's [deviceId] is [9004], and for
    every other actuator and every string datapoint the complement of the
    datapoint named by that string with [o] for its first character
    ([idp0000] reads [odp0000], [odp0002] reads itself); the complement is 0
    when the datapoint read is [== 1] and 1 when it is not, so 1 gives 0 and 0
    gives 1. *)
Theorem toggle (d : gmap string Actuator) (serialnumber : jsval) (channel : string)
    (datapoint : jsval) (a : Actuator) (c : Channel) :
  d !! to_string serialnumber = Some a ->
  channels a !! channel = Some c ->
  (loose_eq (deviceId a) (VStr "9004") = false -> exists dp, datapoint = VStr dp) ->
  let look := if loose_eq (deviceId a) (VStr "9004") then "odp0006"
              else match datapoint with
                   | VStr (String _ rest) => String "o" rest
                   | _ => "o"
                   end in
  let current := match datapoints c !! look with
                 | Some v => v
                 | None => VUndef
                 end in
  set d serialnumber channel datapoint (VStr "x")
  = Returns tt
      [ Send {| rpc_serialnumber := serialnumber; rpc_channel := channel;
                rpc_datapoint := datapoint;
                rpc_value := if loose_eq current (num 1) then num 0
                             else num 1 |} ]
  /\ loose_eq (num 1) (num 1) = true /\ loose_eq (num 0) (num 1) = false
  /\ loose_eq (VStr "1") (num 1) = true /\ loose_eq (VStr "0") (num 1) = false.
Proof.
  intros Ha Hc Hdp look current. split; [ | vm_compute; repeat split ].
  rewrite (set_toggle _ _ _ _ _ _ Ha Hc Hdp). fold look.
  unfold write, complement, datapoint_of, current.
  now destruct (datapoints c !! look).
Qed.

Lemma toggle_witness :
  set moving_up (VStr thermostat_serial) "ch0000" (VStr "idp000B") (VStr "x")
  = Returns tt [Send {| rpc_serialnumber := VStr thermostat_serial;
                        rpc_channel := "ch0000"; rpc_datapoint := VStr "idp000B";
                        rpc_value := num 0 |}]
  /\ set moving_up (VStr switch_serial) "ch0000" (VStr "idp0000") (VStr "x")
     = Returns tt [Send {| rpc_serialnumber := VStr switch_serial;
                           rpc_channel := "ch0000"; rpc_datapoint := VStr "idp0000";
                           rpc_value := num 1 |}]
  /\ set workshop (VStr dimmer_serial) "ch0000" (VStr "odp0002") (VStr "x")
     = Returns tt [Send {| rpc_serialnumber := VStr dimmer_serial;
                           rpc_channel := "ch0000"; rpc_datapoint := VStr "odp0002";
                           rpc_value := num 0 |}].
Proof.
  assert (Ht : moving_up !! to_string (VStr thermostat_serial)
               = Some (thermostat (VStr "20.5"))) by (vm_compute; reflexivity).
  assert (Htc : channels (thermostat (VStr "20.5")) !! "ch0000"
                = Some (thermostat_channel (VStr "20.5"))) by (vm_compute; reflexivity).
  assert (Htd : loose_eq (deviceId (thermostat (VStr "20.5"))) (VStr "9004") = false ->
                exists dp, VStr "idp000B" = VStr dp) by (intros _; now exists "idp000B").
  assert (Hs : moving_up !! to_string (VStr switch_serial) = Some (switch (VStr "0")))
    by (vm_compute; reflexivity).
  assert (Hsc : channels (switch (VStr "0")) !! "ch0000" = Some (switch_channel (VStr "0")))
    by (vm_compute; reflexivity).
  assert (Hsd : loose_eq (deviceId (switch (VStr "0"))) (VStr "9004") = false ->
                exists dp, VStr "idp0000" = VStr dp) by (intros _; now exists "idp0000").
  assert (Hd : workshop !! to_string (VStr dimmer_serial) = Some dimmer)
    by (vm_compute; reflexivity).
  assert (Hdc : channels dimmer !! "ch0000" = Some dimmer_channel)
    by (vm_compute; reflexivity).
  assert (Hdd : loose_eq (deviceId dimmer) (VStr "9004") = false ->
                exists dp, VStr "odp0002" = VStr dp) by (intros _; now exists "odp0002").
  split; [ | split ].
  - etransitivity;
      [ exact (proj1 (toggle moving_up (VStr thermostat_serial) "ch0000" (VStr "idp000B")
                        _ _ Ht Htc Htd))
      | vm_compute; reflexivity ].
  - etransitivity;
      [ exact (proj1 (toggle moving_up (VStr switch_serial) "ch0000" (VStr "idp0000")
                        _ _ Hs Hsc Hsd))
      | vm_compute; reflexivity ].
  - etransitivity;
      [ exact (proj1 (toggle workshop (VStr dimmer_serial) "ch0000" (VStr "odp0002")
                        _ _ Hd Hdc Hdd))
      | vm_compute; reflexivity ].
Defined.

(** The thermostat of the samples is on ([odp0006 = 1]): its toggle sends 0. *)
Example toggle_thermostat_off :
  effects_of (parse moving_up "thermostat" thermostat_serial "ch0000" "toggle" VUndef)
  = [write (VStr thermostat_serial) "ch0000" (VStr "idp000B") (num 0)].
Proof. vm_compute. reflexivity. Qed.

(** C10. A toggle on an actuator and channel of the State Store always
    returns, for the thermostat and for every string datapoint of any other
    actuator; when the output datapoint it reads is not in the channel, or
    holds a value that is not [== 1], the value sent is 1. *)
Theorem toggle_of_missing_or_off (d : gmap string Actuator) (serialnumber : jsval)
    (channel : string) (datapoint : jsval) (a : Actuator) (c : Channel) :
  d !! to_string serialnumber = Some a ->
  channels a !! channel = Some c ->
  (loose_eq (deviceId a) (VStr "9004") = false -> exists dp, datapoint = VStr dp) ->
  let look := if loose_eq (deviceId a) (VStr "9004") then "odp0006"
              else match datapoint with
                   | VStr (String _ rest) => String "o" rest
                   | _ => "o"
                   end in
  (forall current, datapoints c !! look = Some current ->
                   loose_eq current (num 1) = false) ->
  set d serialnumber channel datapoint (VStr "x")
  = Returns tt
      [ Send {| rpc_serialnumber := serialnumber; rpc_channel := channel;
                rpc_datapoint := datapoint; rpc_value := num 1 |} ].
Proof.
  intros Ha Hc Hdp look Hoff.
  rewrite (set_toggle _ _ _ _ _ _ Ha Hc Hdp). fold look.
  unfold write, complement, datapoint_of.
  destruct (datapoints c !! look) as [ current | ] eqn:Hlook;
    cbn [default from_option id].
  - now rewrite (Hoff current eq_refl).
  - reflexivity.
Qed.

Lemma toggle_of_missing_or_off_witness :
  set moving_up (VStr switch_serial) "ch0000" (VStr "idp0001") (VStr "x")
  = Returns tt [Send {| rpc_serialnumber := VStr switch_serial;
                        rpc_channel := "ch0000"; rpc_datapoint := VStr "idp0001";
                        rpc_value := num 1 |}]
  /\ set moving_up (VStr switch_serial) "ch0000" (VStr "odp0000") (VStr "x")
     = Returns tt [Send {| rpc_serialnumber := VStr switch_serial;
                           rpc_channel := "ch0000"; rpc_datapoint := VStr "odp0000";
                           rpc_value := num 1 |}].
Proof.
  assert (Ha : moving_up !! to_string (VStr switch_serial) = Some (switch (VStr "0")))
    by (vm_compute; reflexivity).
  assert (Hc : channels (switch (VStr "0")) !! "ch0000" = Some (switch_channel (VStr "0")))
    by (vm_compute; reflexivity).
  assert (Hd1 : loose_eq (deviceId (switch (VStr "0"))) (VStr "9004") = false ->
                exists dp, VStr "idp0001" = VStr dp) by (intros _; now exists "idp0001").
  assert (Hd0 : loose_eq (deviceId (switch (VStr "0"))) (VStr "9004") = false ->
                exists dp, VStr "odp0000" = VStr dp) by (intros _; now exists "odp0000").
  assert (Hmissing : forall current,
             datapoints (switch_channel (VStr "0")) !! "odp0001" = Some current ->
             loose_eq current (num 1) = false)
    by (intros current H; vm_compute in H; discriminate H).
  assert (Hoff : forall current,
             datapoints (switch_channel (VStr "0")) !! "odp0000" = Some current ->
             loose_eq current (num 1) = false).
  { intros current H.
    assert (Hv : datapoints (switch_channel (VStr "0")) !! "odp0000" = Some (VStr "0"))
      by (vm_compute; reflexivity).
    rewrite Hv in H. injection H as <-. vm_compute. reflexivity. }
  split.
  - exact (toggle_of_missing_or_off moving_up (VStr switch_serial) "ch0000" (VStr "idp0001")
             _ _ Ha Hc Hd1 Hmissing).
  - exact (toggle_of_missing_or_off moving_up (VStr switch_serial) "ch0000" (VStr "odp0000")
             _ _ Ha Hc Hd0 Hoff).
Defined.

(** *** Signed delta *)



(** The [down] action of a thermostat set to 20.5, held as a string or as a
    Number: -1 is written. *)
Example thermostat_down_from_20_5 :
  effects_of (parse moving_up "thermostat" thermostat_serial "ch0000" "down" VUndef)
  = [write (VStr thermostat_serial) "ch0000" (VStr "idp0007") (num (-1))]
  /\ effects_of (parse at_rest "thermostat" thermostat_serial "ch0000" "down" VUndef)
     = [write (VStr thermostat_serial) "ch0000" (VStr "idp0007") (num (-1))].
Proof. vm_compute. split; reflexivity. Qed.

(** ** What [parse] checks *)

Lemma actuator_of_own (actuators : gmap string Actuator) (serialnumber : string)
    (a : Actuator) :
  actuators !! serialnumber = Some a -> actuator_of actuators serialnumber = Some a.
Proof. intros H. unfold actuator_of. now rewrite H. Qed.

Section Checks.
Variable actuators : gmap string Actuator.
Variables (type serialnumber channel action : string) (value : jsval).

Let type' : string := if String.eqb type "blind" then "shutter" else type.

(** The checks in their order, each under the ones before it having passed. *)
Lemma parse_unknown_type :
  get_property (commands value) type' = Absent ->
  parse actuators type serialnumber channel action value
  = refuse (unknown_command type').
Proof. intros H. unfold parse. fold type'. now rewrite H. Qed.

Lemma parse_unknown_action (entry : command) :
  get_property (commands value) type' = Own entry ->
  get_property (actions entry) action = Absent ->
  parse actuators type serialnumber channel action value
  = refuse (unknown_action action type').
Proof. intros H1 H2. unfold parse. fold type'. now rewrite H1, H2. Qed.

Lemma parse_not_found (entry : command) :
  get_property (commands value) type' = Own entry ->
  get_property (actions entry) action <> Absent ->
  actuator_of actuators serialnumber = None ->
  parse actuators type serialnumber channel action value
  = refuse (not_found serialnumber).
Proof.
  intros H1 H2 H3. unfold parse. fold type'. rewrite H1, H3.
  now destruct (get_property (actions entry) action).
Qed.

Lemma parse_wrong_type (entry : command) (a : Actuator) (ids : list string) :
  get_property (commands value) type' = Own entry ->
  get_property (actions entry) action <> Absent ->
  actuator_of actuators serialnumber = Some a ->
  deviceIds entry = Some ids ->
  not_listed ids (deviceId a) = true ->
  parse actuators type serialnumber channel action value
  = refuse (wrong_type serialnumber (typeName a) type').
Proof.
  intros H1 H2 H3 H4 H5. unfold parse. fold type'. rewrite H1, H3, H4, H5.
  now destruct (get_property (actions entry) action).
Qed.

(** A type name inherited from [Object.prototype] passes the first check, and
    the second one throws. *)
Lemma parse_inherited_type :
  get_property (commands value) type' = Inherited ->
  parse actuators type serialnumber channel action value = Throws [].
Proof. intros H. unfold parse. fold type'. now rewrite H. Qed.

End Checks.

(** The four types without an allow-list. *)
Lemma no_allow_list (value : jsval) (type : string) (entry : command) :
  In type ["switchgroup"; "shuttergroup"; "scene"; "thermostat"] ->
  get_property (commands value) type = Own entry ->
  deviceIds entry = None.
Proof.
  intros Hin H. cbn [In] in Hin.
  unfold get_property, commands in H.
  destruct Hin as [ <- | [ <- | [ <- | [ <- | [] ] ] ] ];
    cbn [own_property String.eqb Ascii.eqb Bool.eqb] in H;
    injection H as <-; reflexivity.
Qed.

(** C5 fails on the names an object literal inherits: the type [constructor]
    is not in the table, and [parse] throws instead of returning the
    unknown-command message; the action [toString] is not an action of
    [switch], and [parse] sends a write to the datapoint [undefined] instead
    of returning the unknown-action message. *)
Theorem inherited_names_pass_the_checks :
  parse moving_up "constructor" switch_serial "ch0000" "on" VUndef = Throws []
  /\ parse moving_up "switch" switch_serial "ch0000" "toString" VUndef
     = Returns
         "set channel ch0000 of switch ABB700A00007 (Schaltaktor 4-fach, 16A, REG) to toString: ABB700A00007/ch0000/undefined: undefined"
         [write (VStr switch_serial) "ch0000" VUndef VUndef]
  /\ parse moving_up "lamp" switch_serial "ch0000" "on" VUndef
     = refuse (unknown_command "lamp")
  /\ parse moving_up "switch" switch_serial "ch0000" "dim" VUndef
     = refuse (unknown_action "dim" "switch").
Proof. vm_compute. repeat split. Qed.

(** C6. [blind] resolves as [shutter] does: the same outcome for every serial
    number, channel, action and value. *)
Theorem blind_is_shutter (actuators : gmap string Actuator)
    (serialnumber channel action : string) (value : jsval) :
  parse actuators "blind" serialnumber channel action value
  = parse actuators "shutter" serialnumber channel action value.
Proof. reflexivity. Qed.

(** The [up] action under both names, on the shutter of the samples. *)
Example blind_up :
  parse at_rest "blind" shutter_serial "ch0003" "up" VUndef
  = Returns
      "set channel ch0003 of shutter ABB700C12345 (Jalousieaktor 4-fach, REG) to up: ABB700C12345/ch0003/idp0000: 0"
      [write (VStr shutter_serial) "ch0003" (VStr "idp0000") (num 0)].
Proof. vm_compute. reflexivity. Qed.

(** A scene request for the action the table has, on a scene entry of the
    State Store, writes [odp0000 = 1] to the serial number in the entry's
    [serialNumber], whatever identifier the caller gave. *)
Lemma scene_writes_to_owner (actuators : gmap string Actuator)
    (id channel action : string) (value : jsval) (a : Actuator)
    (chosen : string * jsval) :
  table_entry value "scene" action = Some chosen ->
  actuators !! id = Some a ->
  parse actuators "scene" id channel action value
  = Returns (confirmation channel "scene" (serialNumber a) (typeName a) action
                          (VStr "odp0000") (num 1))
            [write (serialNumber a) channel (VStr "odp0000") (num 1)].
Proof.
  intros Hentry Ha.
  assert (Haction : action = "set").
  { unfold table_entry in Hentry. cbn [own_property commands String.eqb Ascii.eqb
      Bool.eqb actions] in Hentry.
    destruct (String.eqb action "set") eqn:E; [ now apply String.eqb_eq | discriminate ]. }
  subst action. unfold parse.
  change (get_property (commands value) (if String.eqb "scene" "blind" then "shutter" else "scene"))
    with (Own {| actions := [("set", ("odp0000", num 1))]; deviceIds := None |}).
  cbn [actions deviceIds].
  change (get_property [("set", ("odp0000", num 1))] "set")
    with (Own ("odp0000", num 1)).
  rewrite (actuator_of_own _ _ _ Ha). cbn [String.eqb Ascii.eqb Bool.eqb].
  rewrite set_literal by discriminate. reflexivity.
Qed.

Lemma scene_writes_to_owner_witness :
  table_entry VUndef "scene" "set" = Some ("odp0000", num 1)
  /\ moving_up !! scene_id = Some scene
  /\ effects_of (parse moving_up "scene" scene_id "ch0000" "set" VUndef)
     = [write (VStr switch_serial) "ch0000" (VStr "odp0000") (num 1)].
Proof.
  assert (He : table_entry VUndef "scene" "set" = Some ("odp0000", num 1))
    by (vm_compute; reflexivity).
  assert (Ha : moving_up !! scene_id = Some scene) by (vm_compute; reflexivity).
  split; [ exact He | split; [ exact Ha | ] ].
  rewrite (scene_writes_to_owner moving_up scene_id "ch0000" "set" VUndef _ _ He Ha).
  reflexivity.
Defined.

(** C7 fails on the action names an object literal inherits: the scene
    request with the action [toString] passes the checks and is confirmed as
    a success, and what it writes to the owner named by [serialNumber] is the
    value [undefined] on the datapoint [undefined], not [odp0000 = 1]; the
    action [set] does write [odp0000 = 1] there. *)
Theorem scene_with_an_inherited_action :
  parse moving_up "scene" scene_id "ch0000" "toString" VUndef
  = Returns
      "set channel ch0000 of scene ABB700A00007 (Szene) to toString: ABB700A00007/ch0000/undefined: undefined"
      [Send {| rpc_serialnumber := VStr switch_serial; rpc_channel := "ch0000";
               rpc_datapoint := VUndef; rpc_value := VUndef |}]
  /\ parse moving_up "scene" scene_id "ch0000" "set" VUndef
     = Returns
         "set channel ch0000 of scene ABB700A00007 (Szene) to set: ABB700A00007/ch0000/odp0000: 1"
         [Send {| rpc_serialnumber := VStr switch_serial; rpc_channel := "ch0000";
                  rpc_datapoint := VStr "odp0000"; rpc_value := num 1 |}].
Proof. vm_compute. split; reflexivity. Qed.

(** The third check has the same leak: a serial number that is not in the
    State Store but is a name every object inherits passes it, and a type
    without an allow-list then writes to it. *)
Example inherited_serial_number_passes :
  parse moving_up "switchgroup" "toString" "ch0000" "on" VUndef
  = Returns
      "set channel ch0000 of switchgroup toString (undefined) to on: toString/ch0000/odp0002: 1"
      [Send {| rpc_serialnumber := VStr "toString"; rpc_channel := "ch0000";
               rpc_datapoint := VStr "odp0002"; rpc_value := num 1 |}]
  /\ parse moving_up "switch" "toString" "ch0000" "on" VUndef
     = refuse (wrong_type "toString" VUndef "switch")
  /\ parse moving_up "switchgroup" "FFFF00000000" "ch0000" "on" VUndef
     = refuse (not_found "FFFF00000000").
Proof. vm_compute. repeat split. Qed.

End CommandFacts.

(** ** The session *)

Module SysapFacts.
Import JS Sysap Samples JSFacts.

(** *** Effects and the trace *)

Lemma fold_perform (effects : list effect) : forall r : session,
  fold_left perform effects r
  = {| state := state r; clock := clock r;
       timers := timers r ++ map (Z.add (clock r)) (armed effects);
       trace := trace r ++ map (pair (clock r)) effects |}.
Proof.
  induction effects as [ | e effects IH ]; intros r; cbn [fold_left].
  - cbn [armed flat_map map]. rewrite !app_nil_r. now destruct r.
  - rewrite IH. unfold perform. cbn [state clock timers trace]. f_equal.
    + destruct e; cbn [armed flat_map map app]; rewrite <- ?app_assoc; reflexivity.
    + cbn [map]. now rewrite <- app_assoc.
Qed.

Lemma commit_eq (r : session) (v : vars) (effects : list effect) :
  commit r (v, effects)
  = {| state := v; clock := clock r;
       timers := timers r ++ map (Z.add (clock r)) (armed effects);
       trace := trace r ++ map (pair (clock r)) effects |}.
Proof. unfold commit. now rewrite fold_perform. Qed.

Lemma exec_snoc (evs : list event) (ev : event) (r : session) :
  exec (evs ++ [ev]) r = step (exec evs r) ev.
Proof. unfold exec. now rewrite fold_left_app. Qed.

Lemma refreshes_app (tr tr' : list (Z * effect)) :
  refreshes (tr ++ tr') = (refreshes tr + refreshes tr')%nat.
Proof. unfold refreshes. now rewrite List.filter_app, length_app. Qed.

Lemma pings_app (tr tr' : list (Z * effect)) :
  pings (tr ++ tr') = (pings tr ++ pings tr')%list.
Proof. unfold pings. now rewrite flat_map_app. Qed.

(** *** Classification *)

Lemma presence_is_nothing_else (s : stanza) :
  is_presence s = true -> is_update s = false /\ is_result s = false.
Proof.
  unfold is_presence, is_update, is_result. intros H%String.eqb_eq.
  rewrite H. split; reflexivity.
Qed.

Lemma result_is_no_update (s : stanza) :
  is_result s = true -> is_update s = false.
Proof.
  unfold is_update, is_result. intros H.
  destruct (String.eqb (name s) "iq") eqn:E; [ | discriminate ].
  apply String.eqb_eq in E. now rewrite E.
Qed.

(** A result whose id is [== lastping] has no effect at all. *)
Lemma ping_result_consumed (v : vars) (s : stanza) (is_sysap : bool) :
  is_result s = true ->
  loose_eq (attrs_id s) (lastping_value v) = true ->
  on_stanza v s is_sysap = (v, []).
Proof.
  intros Hres Hid. unfold on_stanza.
  now rewrite (result_is_no_update s Hres), Hres, Hid.
Qed.

(** What one event adds to the refresh requests and to [subscribed]. *)
Lemma step_handshake (r : session) (ev : event) :
  refreshes (trace (step r ev))
  = (refreshes (trace r)
     + (if (confirms ev && negb (subscribed (state r)))%bool then 1 else 0))%nat
  /\ subscribed (state (step r ev)) = (subscribed (state r) || confirms ev)%bool.
Proof.
  destruct ev as [ | s is_sysap | | ]; cbn [step confirms andb].
  - unfold on_online, keepAlive. rewrite commit_eq. cbn [trace state subscribed].
    rewrite refreshes_app, orb_false_r. cbn. split; [ lia | reflexivity ].
  - unfold on_stanza.
    destruct (is_presence s) eqn:Hp.
    + destruct (presence_is_nothing_else s Hp) as [-> ->].
      destruct is_sysap, (subscribed (state r)) eqn:Hs; cbn [andb negb orb];
        rewrite commit_eq; cbn [trace state subscribed];
        rewrite refreshes_app, ?Hs; cbn; (split; [ lia | reflexivity ]).
    + cbn [andb]. rewrite orb_false_r.
      destruct (is_update s); [ | destruct (is_result s);
        [ destruct (loose_eq _ _) | ] ];
        rewrite commit_eq; cbn [trace state]; rewrite refreshes_app; cbn;
        (split; [ lia | reflexivity ]).
  - rewrite orb_false_r. destruct (earliest (timers r)) as [ [due rest] | ].
    + unfold keepAlive. rewrite commit_eq. cbn [trace state subscribed].
      rewrite refreshes_app. cbn. split; [ lia | reflexivity ].
    + split; [ lia | reflexivity ].
  - rewrite orb_false_r. split; [ lia | reflexivity ].
Qed.

(** [subscribed] is set exactly when a confirming presence stanza has been
    handled, and then one refresh has been requested. *)
Lemma handshake_invariant (t0 : Z) (evs : list event) :
  subscribed (state (exec evs (boot t0))) = existsb confirms evs
  /\ refreshes (trace (exec evs (boot t0))) = if existsb confirms evs then 1%nat else 0%nat.
Proof.
  induction evs as [ | ev evs [IHs IHr] ] using rev_ind.
  - split; reflexivity.
  - rewrite exec_snoc, existsb_app. cbn [existsb]. rewrite orb_false_r.
    destruct (step_handshake (exec evs (boot t0)) ev) as [Hr Hs].
    rewrite Hr, Hs, IHs, IHr. split; [ reflexivity | ].
    destruct (existsb confirms evs), (confirms ev); reflexivity.
Qed.

(** C8. Along every sequence of events the full refresh ([sysap_internal.all])
    is requested once if the sequence holds a presence stanza that the presence
    handler confirms, and not at all if it holds none; the event that adds the
    request is a confirming presence stanza with no confirming one before
    it. *)
Theorem refresh_once (t0 : Z) (evs : list event) (ev : event) :
  let r := exec evs (boot t0) in
  refreshes (trace r) = (if existsb confirms evs then 1 else 0)%nat
  /\ refreshes (trace (step r ev))
     = (refreshes (trace r)
        + (if (confirms ev && negb (existsb confirms evs))%bool then 1 else 0))%nat.
Proof.
  intros r. destruct (handshake_invariant t0 evs) as [Hs Hr].
  split; [ exact Hr | ].
  unfold r. rewrite (proj1 (step_handshake _ ev)), Hs. reflexivity.
Qed.

(** *** Keepalive *)

Lemma every_10s_S (t0 : Z) (n : nat) :
  every_10s t0 (S n)
  = (every_10s t0 n ++ [(t0 + 10000 * Z.of_nat n, Z.of_nat n + 1)])%list.
Proof. unfold every_10s. now rewrite seq_S, map_app. Qed.

Lemma fired_snoc (evs : list event) (ev : event) :
  fired (evs ++ [ev]) = (fired evs + match ev with Timer => 1 | _ => 0 end)%nat.
Proof.
  unfold fired. rewrite List.filter_app, length_app. now destruct ev.
Qed.

(** A stanza touches neither the counter nor the timers, and sends no ping. *)
Lemma stanza_leaves_keepalive (r : session) (s : stanza) (is_sysap : bool) :
  let r' := step r (Stanza s is_sysap) in
  count (state r') = count (state r) /\ lastping (state r') = lastping (state r)
  /\ timers r' = timers r /\ clock r' = clock r
  /\ pings (trace r') = pings (trace r).
Proof.
  cbn [step]. unfold on_stanza.
  destruct (is_update s); [ | destruct (is_result s);
    [ destruct (loose_eq _ _)
    | destruct (is_presence s); [ destruct (_ && _)%bool | ] ] ];
    rewrite commit_eq; cbn [state clock timers trace count lastping armed flat_map map];
    rewrite pings_app, !app_nil_r; repeat split; reflexivity.
Qed.

(** One loop, started by [Online] at [t0]: after [k] timers have fired the
    counter is [k + 1], one timer is armed, and the pings so far were sent
    every 10 seconds with ids 1, 2, ... *)
Lemma keepalive_invariant (t0 : Z) (evs : list event) :
  forallb (fun ev => negb (is_Online ev)) evs = true ->
  Z.of_nat (S (fired evs)) <= 2 ^ 53 ->
  let r := exec (Online :: evs) (boot t0) in
  let n := Z.of_nat (S (fired evs)) in
  count (state r) = n /\ lastping (state r) = Some n
  /\ timers r = [t0 + 10000 * n] /\ clock r = t0 + 10000 * (n - 1)
  /\ pings (trace r) = every_10s t0 (S (fired evs)).
Proof.
  induction evs as [ | ev evs IH ] using rev_ind; intros Hno Hbound.
  - cbn. repeat split; do 2 f_equal; lia.
  - rewrite forallb_app in Hno. apply andb_prop in Hno as [Hno Hev].
    rewrite fired_snoc in Hbound |- *.
    cbn zeta in IH |- *. rewrite app_comm_cons, exec_snoc.
    specialize (IH Hno ltac:(lia)).
    set (r := exec (Online :: evs) (boot t0)) in *.
    destruct IH as (Hcount & Hlast & Htimers & Hclock & Hpings).
    destruct ev as [ | s is_sysap | | ].
    + discriminate Hev.
    + destruct (stanza_leaves_keepalive r s is_sysap) as (-> & -> & -> & -> & ->).
      rewrite Nat.add_0_r. repeat split; assumption.
    + cbn [step]. rewrite Htimers. cbn [earliest]. unfold keepAlive.
      rewrite commit_eq. cbn [state clock timers trace count lastping armed flat_map map app].
      rewrite pings_app, Hpings, Hcount. cbn [pings flat_map snd fst app].
      replace (fired evs + 1)%nat with (S (fired evs)) in * by lia.
      rewrite (every_10s_S t0 (S (fired evs))).
      assert (Hinc : increment (Z.of_nat (S (fired evs))) = Z.of_nat (S (S (fired evs)))).
      { unfold increment. destruct (_ <? _) eqn:E; [ lia | ].
        apply Z.ltb_ge in E. lia. }
      rewrite Hinc, Hclock.
      rewrite Z.max_r by lia.
      split; [ reflexivity | split; [ reflexivity | split; [ | split ] ] ].
      * f_equal. lia.
      * lia.
      * do 3 f_equal. lia.
    + rewrite Nat.add_0_r. cbn [step]. repeat split; assumption.
Qed.

(** In every run, [lastping] is the id of the ping sent last. *)
Lemma lastping_is_last_ping (t0 : Z) (evs : list event) :
  lastping (state (exec evs (boot t0))) = last_ping (trace (exec evs (boot t0))).
Proof.
  induction evs as [ | ev evs IH ] using rev_ind; [ reflexivity | ].
  rewrite exec_snoc. set (r := exec evs (boot t0)) in *.
  assert (Hkeep : forall r0, lastping (state r0) = last_ping (trace r0) ->
            forall c' rest,
            lastping (state (commit {| state := state r0; clock := c'; timers := rest;
                                       trace := trace r0 |} (keepAlive (state r0))))
            = last_ping (trace (commit {| state := state r0; clock := c'; timers := rest;
                                          trace := trace r0 |} (keepAlive (state r0))))).
  { intros r0 _ c' rest. unfold keepAlive. rewrite commit_eq.
    cbn [state clock timers trace lastping map]. unfold last_ping.
    rewrite pings_app, map_app. cbn [pings flat_map snd fst app map].
    now rewrite List.last_last. }
  destruct ev as [ | s is_sysap | | ]; cbn [step].
  - unfold on_online.
    specialize (Hkeep r IH (clock r) (timers r)). unfold keepAlive in *.
    rewrite commit_eq in *. cbn [state clock timers trace lastping map] in *.
    unfold last_ping in *. rewrite pings_app, map_app in *.
    cbn [pings flat_map snd fst app map] in *. now rewrite List.last_last.
  - destruct (stanza_leaves_keepalive r s is_sysap) as (_ & Hl & _ & _ & Hp).
    cbn [step] in Hl, Hp. unfold last_ping. now rewrite Hl, Hp.
  - destruct (earliest (timers r)) as [ [due rest] | ]; [ | exact IH ].
    exact (Hkeep r IH _ _).
  - exact IH.
Qed.

(** C9. In a run with one keepalive loop, started at [t0], the pings are
    sent every 10 seconds ([t0], [t0 + 10000], ...) whatever stanzas arrive in
    between, with the ids 1, 2, 3, ...; and a result stanza from the RPC
    address whose id is [==] the id of the ping sent last changes nothing: no
    call of the response handler, no status publish.  The counter is a Number:
    the ids count up as long as they are below 2^53. *)
Theorem keepalive (t0 : Z) (evs : list event) (s : stanza) (is_sysap : bool) :
  forallb (fun ev => negb (is_Online ev)) evs = true ->
  Z.of_nat (S (fired evs)) <= 2 ^ 53 ->
  is_result s = true ->
  loose_eq (attrs_id s) (num (Z.of_nat (S (fired evs)))) = true ->
  let r := exec (Online :: evs) (boot t0) in
  pings (trace r) = every_10s t0 (S (fired evs))
  /\ last_ping (trace r) = Some (Z.of_nat (S (fired evs)))
  /\ step r (Stanza s is_sysap) = r.
Proof.
  intros Hno Hbound Hres Hid r.
  destruct (keepalive_invariant t0 evs Hno Hbound) as (_ & Hlast & _ & _ & Hpings).
  fold r in Hlast, Hpings.
  split; [ exact Hpings | split ].
  - unfold r. rewrite <- (lastping_is_last_ping t0 (Online :: evs)). exact Hlast.
  - cbn [step]. rewrite ping_result_consumed; [ now destruct r | exact Hres | ].
    unfold lastping_value. now rewrite Hlast.
Qed.

Lemma keepalive_witness :
  let evs := [Timer; Stanza (presence_stanza "mrha@busch-jaeger.de") true; Timer] in
  forallb (fun ev => negb (is_Online ev)) evs = true
  /\ Z.of_nat (S (fired evs)) <= 2 ^ 53
  /\ is_result (result_stanza (VStr "3")) = true
  /\ loose_eq (attrs_id (result_stanza (VStr "3"))) (num (Z.of_nat (S (fired evs)))) = true
  /\ pings (trace (exec (Online :: evs) (boot 0))) = [(0, 1); (10000, 2); (20000, 3)]
  /\ step (exec (Online :: evs) (boot 0)) (Stanza (result_stanza (VStr "3")) false)
     = exec (Online :: evs) (boot 0).
Proof.
  intros evs.
  assert (H1 : forallb (fun ev => negb (is_Online ev)) evs = true) by reflexivity.
  assert (H2 : Z.of_nat (S (fired evs)) <= 2 ^ 53) by (vm_compute; discriminate).
  assert (H3 : is_result (result_stanza (VStr "3")) = true) by reflexivity.
  assert (H4 : loose_eq (attrs_id (result_stanza (VStr "3")))
                        (num (Z.of_nat (S (fired evs)))) = true)
    by (vm_compute; reflexivity).
  destruct (keepalive 0 evs (result_stanza (VStr "3")) false H1 H2 H3 H4)
    as (Hp & _ & Hs).
  split; [ exact H1 | split; [ exact H2 | split; [ exact H3 | split; [ exact H4 | ] ] ] ].
  split; [ exact Hp | exact Hs ].
Defined.

(** The same for the id as it comes back on the wire, in decimal digits. *)
Lemma echoed_ping_is_consumed (t0 : Z) (evs : list event) (s : stanza) (is_sysap : bool) :
  forallb (fun ev => negb (is_Online ev)) evs = true ->
  Z.of_nat (S (fired evs)) <= 2 ^ 53 ->
  is_result s = true ->
  attrs_id s = VStr (digits (Z.of_nat (S (fired evs)))) ->
  step (exec (Online :: evs) (boot t0)) (Stanza s is_sysap)
  = exec (Online :: evs) (boot t0).
Proof.
  intros Hno Hbound Hres Hid.
  destruct (keepalive_invariant t0 evs Hno Hbound) as (_ & Hlast & _).
  cbn [step]. rewrite ping_result_consumed;
    [ now destruct (exec (Online :: evs) (boot t0)) | exact Hres | ].
  unfold lastping_value. rewrite Hlast, Hid. apply echoed_id_is_equal. lia.
Qed.

(** A result with any other id goes to the response handler. *)
Example other_result_is_forwarded :
  on_stanza {| count := 3; lastping := Some 3; subscribed := true |}
            (result_stanza (VStr "freeathome-17")) false
  = ({| count := 3; lastping := Some 3; subscribed := true |},
     [Response (result_stanza (VStr "freeathome-17")); Status]).
Proof. vm_compute. reflexivity. Qed.

End SysapFacts.

(** ** More on [set] and [parse] *)

Module CommandMore.
Import JS Command Samples JSFacts CommandFacts.

(** *** The shape of what [set] does *)

Lemma set_shape (d : gmap string Actuator) (serialnumber : jsval) (channel : string)
    (datapoint value : jsval) :
  set d serialnumber channel datapoint value = Throws []
  \/ exists w, rpc_serialnumber w = serialnumber /\ rpc_channel w = channel
       /\ (set d serialnumber channel datapoint value = Returns tt [Send w]
           \/ exists f delay,
                set d serialnumber channel datapoint value
                = Returns tt [SetTimeout f delay; Send w]).
Proof.
  unfold set, write.
  repeat case_match;
    first [ left; reflexivity
          | right; eexists; split; [ | split; [ | left; reflexivity ] ]; reflexivity
          | right; eexists; split;
              [ | split; [ | right; eexists; eexists; reflexivity ] ]; reflexivity ].
Qed.

(** X1. A call of [set] either throws having done nothing, or returns having
    sent exactly one write, to the serial number and channel it was given, and
    having armed at most one timer. *)
Theorem set_sends_one_write (d : gmap string Actuator) (serialnumber : jsval)
    (channel : string) (datapoint value : jsval) :
  match set d serialnumber channel datapoint value with
  | Throws effects => effects = []
  | Returns _ effects =>
      (length (timeouts effects) <= 1)%nat
      /\ exists w, writes effects = [w]
           /\ rpc_serialnumber w = serialnumber /\ rpc_channel w = channel
  end.
Proof.
  destruct (set_shape d serialnumber channel datapoint value)
    as [ -> | (w & Hs & Hc & [ -> | (f & delay & ->) ]) ].
  - reflexivity.
  - split; [ cbn; lia | ]. exists w. now repeat split.
  - split; [ cbn; lia | ]. exists w. now repeat split.
Qed.

Lemma channel_of_known (d : gmap string Actuator) (serialnumber : jsval) (channel : string)
    (a : Actuator) (c : Channel) :
  d !! to_string serialnumber = Some a ->
  channels a !! channel = Some c ->
  channel_of d serialnumber channel = Some c.
Proof. intros Ha Hc. unfold channel_of. now rewrite Ha. Qed.

(** With the actuator and the channel in the State Store and a string for
    datapoint, no read in [set] is on [undefined]. *)
Lemma set_known (d : gmap string Actuator) (serialnumber : jsval) (channel dp : string)
    (value : jsval) (a : Actuator) (c : Channel) :
  d !! to_string serialnumber = Some a ->
  channels a !! channel = Some c ->
  exists effects, set d serialnumber channel (VStr dp) value = Returns tt effects.
Proof.
  intros Ha Hc. pose proof (channel_of_known _ _ _ _ _ Ha Hc) as Hco.
  unfold set. rewrite Hco, Ha, Hc. repeat case_match; eauto.
Qed.

(** A value one of the four branches takes needs the channel. *)
Lemma symbolic_needs_channel (d : gmap string Actuator) (serialnumber : jsval)
    (channel : string) (datapoint value : jsval) :
  symbolic value = true ->
  channel_of d serialnumber channel = None ->
  set d serialnumber channel datapoint value = Throws [].
Proof.
  unfold symbolic, set, channel_of. intros Hsym Hco.
  destruct (loose_eq value (VStr "x")).
  - destruct (d !! to_string serialnumber) as [ a | ]; [ | reflexivity ].
    rewrite Hco. now repeat case_match.
  - cbn [orb] in Hsym. destruct value as [ | n | s ]; try discriminate Hsym.
    destruct (String.eqb (substr s 0 2) "x-"); [ now rewrite Hco | ].
    destruct (String.eqb (substr s 0 2) "p-"); [ now rewrite Hco | ].
    cbn [orb] in Hsym. rewrite Hsym. now rewrite Hco.
Qed.

(** X2. With the actuator and the channel in the State Store and a string for
    datapoint, [set] returns for every value, and has sent one write to that
    serial number and channel. *)
Theorem set_returns_on_known_channel (d : gmap string Actuator) (serialnumber : jsval)
    (channel dp : string) (value : jsval) (a : Actuator) (c : Channel) :
  d !! to_string serialnumber = Some a ->
  channels a !! channel = Some c ->
  exists effects w,
    set d serialnumber channel (VStr dp) value = Returns tt effects
    /\ writes effects = [w]
    /\ rpc_serialnumber w = serialnumber /\ rpc_channel w = channel.
Proof.
  intros Ha Hc.
  destruct (set_shape d serialnumber channel (VStr dp) value)
    as [ H | (w & Hs & Hch & [ H | (f & delay & H) ]) ].
  - destruct (set_known d serialnumber channel dp value a c Ha Hc) as [e He].
    rewrite H in He. discriminate He.
  - exists [Send w], w. now repeat split.
  - exists [SetTimeout f delay; Send w], w. now repeat split.
Qed.

Lemma set_returns_on_known_channel_witness :
  moving_up !! to_string (VStr shutter_serial) = Some (shutter (VStr "2") (VStr "50"))
  /\ channels (shutter (VStr "2") (VStr "50")) !! "ch0003"
     = Some (shutter_channel (VStr "2") (VStr "50"))
  /\ exists effects w,
       set moving_up (VStr shutter_serial) "ch0003" (VStr "idp0000") (VStr "p-0")
       = Returns tt effects
       /\ writes effects = [w]
       /\ rpc_serialnumber w = VStr shutter_serial /\ rpc_channel w = "ch0003".
Proof.
  assert (Ha : moving_up !! to_string (VStr shutter_serial)
               = Some (shutter (VStr "2") (VStr "50"))) by (vm_compute; reflexivity).
  assert (Hc : channels (shutter (VStr "2") (VStr "50")) !! "ch0003"
               = Some (shutter_channel (VStr "2") (VStr "50")))
    by (vm_compute; reflexivity).
  split; [ exact Ha | split; [ exact Hc | ] ].
  exact (set_returns_on_known_channel moving_up (VStr shutter_serial) "ch0003" "idp0000"
           (VStr "p-0") _ _ Ha Hc).
Defined.

(** X3. A value none of the four branches takes (a Number, [undefined], a
    string such as ["50"] or the empty string) is written as it is, to the
    datapoint given, whatever the State Store holds. *)
Theorem plain_value_is_written (d : gmap string Actuator) (serialnumber : jsval)
    (channel : string) (datapoint value : jsval) :
  symbolic value = false ->
  set d serialnumber channel datapoint value
  = Returns tt [write serialnumber channel datapoint value].
Proof.
  unfold symbolic, set. intros Hsym.
  apply orb_false_elim in Hsym as [-> Hsym].
  destruct value as [ | n | s ]; try reflexivity.
  apply orb_false_elim in Hsym as [Hsym Hplus].
  apply orb_false_elim in Hsym as [Hsym Hminus].
  apply orb_false_elim in Hsym as [-> ->].
  now rewrite Hminus, Hplus.
Qed.

Lemma plain_value_is_written_witness :
  symbolic (VStr "") = false
  /\ set nowhere (VStr "ABB7") "ch0000" (VStr "idp0000") (VStr "")
     = Returns tt [write (VStr "ABB7") "ch0000" (VStr "idp0000") (VStr "")].
Proof.
  assert (H : symbolic (VStr "") = false) by reflexivity.
  split; [ exact H | ].
  exact (plain_value_is_written nowhere (VStr "ABB7") "ch0000" (VStr "idp0000") (VStr "") H).
Defined.

(** X4. A value one of the four branches takes ([x], [x-...], [p-...],
    [+...], [-...]), with a string for datapoint: [set] throws exactly when the
    serial number or the channel is not in the State Store. *)
Theorem symbolic_value_needs_the_channel (d : gmap string Actuator) (serialnumber : jsval)
    (channel dp : string) (value : jsval) :
  symbolic value = true ->
  set d serialnumber channel (VStr dp) value = Throws []
  <-> channel_of d serialnumber channel = None.
Proof.
  intros Hsym. split.
  - intros Hthrow. unfold channel_of.
    destruct (d !! to_string serialnumber) as [ a | ] eqn:Ha; [ | reflexivity ].
    destruct (channels a !! channel) as [ c | ] eqn:Hc; [ | reflexivity ].
    destruct (set_known d serialnumber channel dp value a c Ha Hc) as [e He].
    rewrite He in Hthrow. discriminate Hthrow.
  - now apply symbolic_needs_channel.
Qed.

Lemma symbolic_value_needs_the_channel_witness :
  symbolic (VStr "x") = true
  /\ (set moving_up (VStr shutter_serial) "ch0009" (VStr "idp0000") (VStr "x") = Throws []
      <-> channel_of moving_up (VStr shutter_serial) "ch0009" = None).
Proof.
  assert (H : symbolic (VStr "x") = true) by reflexivity.
  split; [ exact H | ].
  exact (symbolic_value_needs_the_channel moving_up (VStr shutter_serial) "ch0009"
           "idp0000" (VStr "x") H).
Defined.

(** *** Datapoints the channel does not have *)

Lemma missing_datapoint (c : Channel) (key : string) :
  datapoints c !! key = None -> datapoint_of c key = VUndef.
Proof. intros H. unfold datapoint_of. now rewrite H. Qed.

Lemma undefined_parses_to_nan : parseInt VUndef = NaN /\ parseFloat VUndef = NaN.
Proof. vm_compute. split; reflexivity. Qed.

(** X5. On a channel without [odp0000] a movement toggle is never rewritten
    to the stop: the direction digit goes out on the datapoint given. *)
Theorem movement_toggle_without_status (d : gmap string Actuator) (serialnumber : jsval)
    (channel : string) (datapoint : jsval) (c : Channel) (down : bool) :
  channel_of d serialnumber channel = Some c ->
  datapoints c !! "odp0000" = None ->
  set d serialnumber channel datapoint (VStr (if down then "x-1" else "x-0"))
  = Returns tt [write serialnumber channel datapoint (VStr (if down then "1" else "0"))].
Proof.
  intros Hc Hodp.
  destruct down; rewrite (set_movement _ _ _ _ _ _ Hc), (missing_datapoint _ _ Hodp);
    reflexivity.
Qed.

Lemma movement_toggle_without_status_witness :
  channel_of silent (VStr shutter_serial) "ch0003" = Some silent_channel
  /\ datapoints silent_channel !! "odp0000" = None
  /\ set silent (VStr shutter_serial) "ch0003" (VStr "idp0000") (VStr "x-0")
     = Returns tt [write (VStr shutter_serial) "ch0003" (VStr "idp0000") (VStr "0")].
Proof.
  assert (Hc : channel_of silent (VStr shutter_serial) "ch0003" = Some silent_channel)
    by (vm_compute; reflexivity).
  assert (Hodp : datapoints silent_channel !! "odp0000" = None) by reflexivity.
  split; [ exact Hc | split; [ exact Hodp | ] ].
  exact (movement_toggle_without_status silent (VStr shutter_serial) "ch0003"
           (VStr "idp0000") _ false Hc Hodp).
Defined.

(** X6. On a channel without [odp0002] a signed delta, whatever its
    magnitude, writes [NaN]. *)
Theorem signed_delta_without_current (d : gmap string Actuator) (serialnumber : jsval)
    (channel : string) (datapoint : jsval) (c : Channel) (negative : bool) (m : string) :
  channel_of d serialnumber channel = Some c ->
  datapoints c !! "odp0002" = None ->
  set d serialnumber channel datapoint
      (VStr (String (if negative then "-" else "+")%char m))
  = Returns tt [write serialnumber channel datapoint (VNum NaN)].
Proof.
  intros Hc Hodp.
  rewrite (set_delta _ _ _ _ _ _ _ Hc), (missing_datapoint _ _ Hodp).
  now rewrite (proj2 undefined_parses_to_nan).
Qed.

Lemma signed_delta_without_current_witness :
  channel_of silent (VStr shutter_serial) "ch0003" = Some silent_channel
  /\ datapoints silent_channel !! "odp0002" = None
  /\ set silent (VStr shutter_serial) "ch0003" (VStr "idp0007") (VStr "+0.5")
     = Returns tt [write (VStr shutter_serial) "ch0003" (VStr "idp0007") (VNum NaN)].
Proof.
  assert (Hc : channel_of silent (VStr shutter_serial) "ch0003" = Some silent_channel)
    by (vm_compute; reflexivity).
  assert (Hodp : datapoints silent_channel !! "odp0002" = None) by reflexivity.
  split; [ exact Hc | split; [ exact Hodp | ] ].
  exact (signed_delta_without_current silent (VStr shutter_serial) "ch0003"
           (VStr "idp0007") _ false "0.5" Hc Hodp).
Defined.

(** X7. On a channel without [pm0006] a pulse still sends the direction and
    arms its one stop timer, with the delay [NaN]. *)
Theorem pulse_without_motor_delay (d : gmap string Actuator) (serialnumber : jsval)
    (channel : string) (datapoint : jsval) (c : Channel) (down : bool) :
  channel_of d serialnumber channel = Some c ->
  datapoints c !! "pm0006" = None ->
  set d serialnumber channel datapoint (VStr (if down then "p-1" else "p-0"))
  = Returns tt
      [ SetTimeout (CallSet serialnumber channel (VStr "idp0001") (num 1)) NaN;
        write serialnumber channel datapoint (VStr (if down then "1" else "0")) ].
Proof.
  intros Hc Hpm.
  destruct down; rewrite (set_pulse _ _ _ _ _ _ Hc), (missing_datapoint _ _ Hpm);
    now rewrite (proj1 undefined_parses_to_nan).
Qed.

Lemma pulse_without_motor_delay_witness :
  channel_of silent (VStr shutter_serial) "ch0003" = Some silent_channel
  /\ datapoints silent_channel !! "pm0006" = None
  /\ set silent (VStr shutter_serial) "ch0003" (VStr "idp0000") (VStr "p-1")
     = Returns tt
         [ SetTimeout (CallSet (VStr shutter_serial) "ch0003" (VStr "idp0001") (num 1)) NaN;
           write (VStr shutter_serial) "ch0003" (VStr "idp0000") (VStr "1") ].
Proof.
  assert (Hc : channel_of silent (VStr shutter_serial) "ch0003" = Some silent_channel)
    by (vm_compute; reflexivity).
  assert (Hpm : datapoints silent_channel !! "pm0006" = None) by reflexivity.
  split; [ exact Hc | split; [ exact Hpm | ] ].
  exact (pulse_without_motor_delay silent (VStr shutter_serial) "ch0003"
           (VStr "idp0000") _ true Hc Hpm).
Defined.

(** X23. Pulses are not merged and no timer is ever taken back: two pulse
    requests one after the other send both directions at once and leave two
    stop timers armed. *)
Theorem pulses_are_not_merged (d : gmap string Actuator) (serialnumber : jsval)
    (channel : string) (datapoint : jsval) (c : Channel) (first second : bool) (l : loop) :
  channel_of d serialnumber channel = Some c ->
  let pulse_of (down : bool) :=
    set d serialnumber channel datapoint (VStr (if down then "p-1" else "p-0")) in
  let direction (down : bool) :=
    {| rpc_serialnumber := serialnumber; rpc_channel := channel;
       rpc_datapoint := datapoint; rpc_value := VStr (if down then "1" else "0") |} in
  let stop_at :=
    (now l + timeout_ms (num_add (of_Z 200) (parseInt (datapoint_of c "pm0006"))),
     CallSet serialnumber channel (VStr "idp0001") (num 1)) in
  let l' := run (pulse_of second) (run (pulse_of first) l) in
  sent l' = (sent l ++ [(now l, direction first); (now l, direction second)])%list
  /\ pending l' = (pending l ++ [stop_at; stop_at])%list.
Proof.
  intros Hc pulse_of direction stop_at l'. unfold l', pulse_of.
  assert (H : forall down : bool, set d serialnumber channel datapoint
                               (VStr (if down then "p-1" else "p-0"))
                           = Returns tt
                               [ SetTimeout (snd stop_at)
                                   (num_add (of_Z 200) (parseInt (datapoint_of c "pm0006")));
                                 Send (direction down) ])
    by (intros [ | ]; now rewrite (set_pulse _ _ _ _ _ _ Hc)).
  rewrite !H. unfold run. cbn [effects_of fold_left perform now sent pending].
  now rewrite <- !app_assoc.
Qed.

Lemma pulses_are_not_merged_witness :
  channel_of moving_up (VStr shutter_serial) "ch0003"
    = Some (shutter_channel (VStr "2") (VStr "50"))
  /\ map fst (pending (run (set moving_up (VStr shutter_serial) "ch0003" (VStr "idp0000")
                                (VStr "p-1"))
                           (run (set moving_up (VStr shutter_serial) "ch0003"
                                     (VStr "idp0000") (VStr "p-0")) idle)))
     = [1250; 1250].
Proof.
  assert (Hc : channel_of moving_up (VStr shutter_serial) "ch0003"
               = Some (shutter_channel (VStr "2") (VStr "50")))
    by (vm_compute; reflexivity).
  split; [ exact Hc | ].
  rewrite (proj2 (pulses_are_not_merged moving_up (VStr shutter_serial) "ch0003"
                    (VStr "idp0000") _ false true idle Hc)).
  vm_compute. reflexivity.
Defined.

(** *** [parse] from the checks to [set] *)

Lemma get_property_own {A : Type} (o : list (string * A)) (k : string) (a : A) :
  get_property o k = Own a <-> own_property o k = Some a.
Proof.
  unfold get_property. destruct (own_property o k) as [ a' | ].
  - split; congruence.
  - split; [ | discriminate ]. now destruct (existsb _ _).
Qed.

Lemma table_entry_own (value : jsval) (type action : string) (chosen : string * jsval) :
  table_entry value type action = Some chosen <->
  exists entry, own_property (commands value) type = Some entry
                /\ own_property (actions entry) action = Some chosen.
Proof.
  unfold table_entry. destruct (own_property (commands value) type) as [ entry | ].
  - split; [ eauto | ]. now intros (entry' & [= <-] & H).
  - split; [ discriminate | ]. now intros (entry' & H & _).
Qed.

(** A request that passes the four checks is what [set] makes of it. *)
Lemma parse_dispatch (actuators : gmap string Actuator)
    (type serialnumber channel action : string) (value : jsval)
    (a : Actuator) (dp : string) (v : jsval) :
  table_entry value (alias type) action = Some (dp, v) ->
  actuators !! serialnumber = Some a ->
  allowed value (alias type) a = true ->
  parse actuators type serialnumber channel action value
  = match set actuators (target (alias type) serialnumber a) channel (VStr dp) v with
    | Returns _ effects =>
        Returns (confirmation channel (alias type) (target (alias type) serialnumber a)
                              (typeName a) action (VStr dp) v) effects
    | Throws effects => Throws effects
    end.
Proof.
  intros (entry & Hentry & Haction)%table_entry_own Ha Hallowed.
  unfold allowed in Hallowed. rewrite Hentry in Hallowed.
  unfold parse. fold (alias type). unfold target.
  rewrite (proj2 (get_property_own _ _ _) Hentry), (proj2 (get_property_own _ _ _) Haction),
    (actuator_of_own _ _ _ Ha).
  destruct (deviceIds entry) as [ ids | ]; [ | reflexivity ].
  apply negb_true_iff in Hallowed. now rewrite Hallowed.
Qed.

(** The table has one scene action, and its value is the Number 1. *)
Lemma scene_entry (value : jsval) (action dp : string) (v : jsval) :
  table_entry value "scene" action = Some (dp, v) -> dp = "odp0000" /\ v = num 1.
Proof.
  unfold table_entry.
  cbn [own_property commands String.eqb Ascii.eqb Bool.eqb actions].
  destruct (String.eqb action "set"); [ now intros [= <- <-] | discriminate ].
Qed.

Lemma write_of_set (d : gmap string Actuator) (serialnumber : jsval) (channel : string)
    (datapoint value : jsval) (w : rpc) :
  In (Send w) (effects_of (set d serialnumber channel datapoint value)) ->
  rpc_serialnumber w = serialnumber /\ rpc_channel w = channel.
Proof.
  destruct (set_shape d serialnumber channel datapoint value)
    as [ -> | (w' & Hs & Hc & [ -> | (f & delay & ->) ]) ]; cbn [effects_of In].
  - intros [].
  - intros [ [= <-] | [] ]. now split.
  - intros [ [=] | [ [= <-] | [] ] ]. now split.
Qed.

(** X8. [parse] sends a write only when [actuators[serialnumber]] is there
    (the serial number is a key of the State Store, or a name every object
    inherits, which reads as a member without a [deviceId]) and the type's
    allow-list passes; so for a type with an allow-list only for a key of the
    store.  The write goes to the channel asked for and to that serial number
    (for a scene to the [serialNumber] of what was found). *)
Theorem parse_writes_only_after_the_checks (actuators : gmap string Actuator)
    (type serialnumber channel action : string) (value : jsval) (w : rpc) :
  In (Send w) (effects_of (parse actuators type serialnumber channel action value)) ->
  exists a, actuator_of actuators serialnumber = Some a
            /\ allowed value (alias type) a = true
            /\ rpc_serialnumber w = target (alias type) serialnumber a
            /\ rpc_channel w = channel
            /\ (forall entry ids,
                  own_property (commands value) (alias type) = Some entry ->
                  deviceIds entry = Some ids ->
                  actuators !! serialnumber = Some a).
Proof.
  unfold parse, allowed. fold (alias type).
  destruct (get_property (commands value) (alias type)) as [ entry | | ] eqn:Hentry;
    [ | intros [] | intros [ [=] | [] ] ].
  apply get_property_own in Hentry. rewrite Hentry.
  assert (Hrest : forall chosen : property (string * jsval),
    In (Send w) (effects_of
      match actuator_of actuators serialnumber with
      | Some a =>
          if match deviceIds entry with
             | Some ids => not_listed ids (deviceId a)
             | None => false
             end
          then refuse (wrong_type serialnumber (typeName a) (alias type))
          else
            let target := if String.eqb (alias type) "scene" then serialNumber a
                          else VStr serialnumber in
            let '(datapoint, value) :=
              match chosen with
              | Own (datapoint, value) => (VStr datapoint, value)
              | _ => (VUndef, VUndef)
              end in
            match set actuators target channel datapoint value with
            | Returns _ effects =>
                Returns (confirmation channel (alias type) target (typeName a) action
                                      datapoint value) effects
            | Throws effects => Throws effects
            end
      | None => refuse (not_found serialnumber)
      end) ->
    exists a, actuator_of actuators serialnumber = Some a
      /\ match deviceIds entry with
         | Some ids => negb (not_listed ids (deviceId a))
         | None => true
         end = true
      /\ rpc_serialnumber w = target (alias type) serialnumber a
      /\ rpc_channel w = channel
      /\ (forall entry' ids,
            Some entry = Some entry' ->
            deviceIds entry' = Some ids ->
            actuators !! serialnumber = Some a)).
  { intros chosen. destruct (actuator_of actuators serialnumber) as [ a | ] eqn:Hfound;
      [ | intros [ [=] | [] ] ].
    destruct (match deviceIds entry with
              | Some ids => not_listed ids (deviceId a)
              | None => false
              end) eqn:Hlisted; [ intros [ [=] | [] ] | ].
    intros Hin. exists a. split; [ reflexivity | ].
    split; [ destruct (deviceIds entry); [ now rewrite Hlisted | reflexivity ] | ].
    assert (Hown : forall entry' ids,
              Some entry = Some entry' -> deviceIds entry' = Some ids ->
              actuators !! serialnumber = Some a).
    { intros entry' ids [= <-] Hids. rewrite Hids in Hlisted.
      unfold actuator_of in Hfound.
      destruct (actuators !! serialnumber) as [ a' | ]; [ exact Hfound | ].
      destruct (existsb _ _); [ | discriminate Hfound ].
      injection Hfound as <-. cbn [inherited_member deviceId not_listed] in Hlisted.
      discriminate Hlisted. }
    cbv zeta in Hin. fold (target (alias type) serialnumber a) in Hin.
    destruct chosen as [ [dp v] | | ];
      match type of Hin with
      | context [ set ?d ?sn ?ch ?dp ?v ] =>
          destruct (write_of_set d sn ch dp v w) as [Hs Hc];
            [ destruct (set d sn ch dp v); exact Hin | now repeat split ]
      end. }
  destruct (get_property (actions entry) action) as [ chosen | | ] eqn:Haction.
  - apply (Hrest (Own chosen)).
  - apply (Hrest Inherited).
  - intros [ [=] | [] ].
Qed.

Lemma parse_writes_only_after_the_checks_witness :
  let w := {| rpc_serialnumber := VStr switch_serial; rpc_channel := "ch0000";
              rpc_datapoint := VStr "idp0000"; rpc_value := num 1 |} in
  In (Send w) (effects_of (parse moving_up "switch" switch_serial "ch0000" "on" VUndef))
  /\ exists a, actuator_of moving_up switch_serial = Some a
               /\ allowed VUndef (alias "switch") a = true
               /\ rpc_serialnumber w = target (alias "switch") switch_serial a
               /\ rpc_channel w = "ch0000"
               /\ (forall entry ids,
                     own_property (commands VUndef) (alias "switch") = Some entry ->
                     deviceIds entry = Some ids ->
                     moving_up !! switch_serial = Some a).
Proof.
  intros w.
  assert (H : In (Send w)
                 (effects_of (parse moving_up "switch" switch_serial "ch0000" "on" VUndef)))
    by (vm_compute; left; reflexivity).
  split; [ exact H | ].
  exact (parse_writes_only_after_the_checks moving_up "switch" switch_serial "ch0000"
           "on" VUndef w H).
Defined.

Lemma symbolic_not_scene (value : jsval) (type action dp : string) (v : jsval) :
  table_entry value type action = Some (dp, v) ->
  symbolic v = true ->
  String.eqb type "scene" = false.
Proof.
  intros Hentry Hsym. destruct (String.eqb type "scene") eqn:E; [ | reflexivity ].
  apply String.eqb_eq in E. subst type.
  destruct (scene_entry value action dp v Hentry) as [_ ->]. discriminate Hsym.
Qed.

(** X9. An action of the table, on an actuator that is in the State Store
    with the channel asked for and passes the allow-list, succeeds: [parse]
    returns the confirmation, which names the datapoint and value of the
    table, and exactly one write has been sent. *)
Theorem table_action_succeeds (actuators : gmap string Actuator)
    (type serialnumber channel action : string) (value : jsval)
    (a : Actuator) (c : Channel) (dp : string) (v : jsval) :
  table_entry value (alias type) action = Some (dp, v) ->
  actuators !! serialnumber = Some a ->
  allowed value (alias type) a = true ->
  channels a !! channel = Some c ->
  exists effects w,
    parse actuators type serialnumber channel action value
    = Returns (confirmation channel (alias type) (target (alias type) serialnumber a)
                            (typeName a) action (VStr dp) v) effects
    /\ writes effects = [w].
Proof.
  intros Hentry Ha Hallowed Hc.
  rewrite (parse_dispatch _ _ _ _ _ _ _ _ _ Hentry Ha Hallowed).
  unfold target. destruct (String.eqb (alias type) "scene") eqn:Hscene.
  - apply String.eqb_eq in Hscene. rewrite Hscene in Hentry.
    destruct (scene_entry _ _ _ _ Hentry) as [-> ->].
    rewrite set_literal by discriminate. eexists _, _. split; reflexivity.
  - destruct (set_shape actuators (VStr serialnumber) channel (VStr dp) v)
      as [ H | (w & _ & _ & [ H | (f & delay & H) ]) ]; rewrite H.
    + destruct (set_known actuators (VStr serialnumber) channel dp v a c Ha Hc) as [e He].
      rewrite H in He. discriminate He.
    + eexists _, w. split; reflexivity.
    + eexists _, w. split; reflexivity.
Qed.

Lemma table_action_succeeds_witness :
  table_entry VUndef (alias "blind") "pulse-up" = Some ("idp0000", VStr "p-0")
  /\ moving_up !! shutter_serial = Some (shutter (VStr "2") (VStr "50"))
  /\ allowed VUndef (alias "blind") (shutter (VStr "2") (VStr "50")) = true
  /\ channels (shutter (VStr "2") (VStr "50")) !! "ch0003"
     = Some (shutter_channel (VStr "2") (VStr "50"))
  /\ exists effects w,
       parse moving_up "blind" shutter_serial "ch0003" "pulse-up" VUndef
       = Returns (confirmation "ch0003" "shutter" (VStr shutter_serial)
                               (VStr "Jalousieaktor 4-fach, REG") "pulse-up"
                               (VStr "idp0000") (VStr "p-0")) effects
       /\ writes effects = [w].
Proof.
  assert (H1 : table_entry VUndef (alias "blind") "pulse-up" = Some ("idp0000", VStr "p-0"))
    by (vm_compute; reflexivity).
  assert (H2 : moving_up !! shutter_serial = Some (shutter (VStr "2") (VStr "50")))
    by (vm_compute; reflexivity).
  assert (H3 : allowed VUndef (alias "blind") (shutter (VStr "2") (VStr "50")) = true)
    by (vm_compute; reflexivity).
  assert (H4 : channels (shutter (VStr "2") (VStr "50")) !! "ch0003"
               = Some (shutter_channel (VStr "2") (VStr "50")))
    by (vm_compute; reflexivity).
  split; [ exact H1 | split; [ exact H2 | split; [ exact H3 | split; [ exact H4 | ] ] ] ].
  exact (table_action_succeeds moving_up "blind" shutter_serial "ch0003" "pulse-up" VUndef
           _ _ _ _ H1 H2 H3 H4).
Defined.

(** X10. [parse] does not look at the channel: an action whose value in the
    table is a Number is confirmed and written for every channel string, in
    the actuator or not. *)
Theorem number_goes_to_any_channel (actuators : gmap string Actuator)
    (type serialnumber channel action : string) (value : jsval)
    (a : Actuator) (dp : string) (n : number) :
  table_entry value (alias type) action = Some (dp, VNum n) ->
  actuators !! serialnumber = Some a ->
  allowed value (alias type) a = true ->
  parse actuators type serialnumber channel action value
  = Returns (confirmation channel (alias type) (target (alias type) serialnumber a)
                          (typeName a) action (VStr dp) (VNum n))
            [write (target (alias type) serialnumber a) channel (VStr dp) (VNum n)].
Proof.
  intros Hentry Ha Hallowed.
  rewrite (parse_dispatch _ _ _ _ _ _ _ _ _ Hentry Ha Hallowed).
  now rewrite set_literal by discriminate.
Qed.

Lemma number_goes_to_any_channel_witness :
  table_entry VUndef (alias "switch") "on" = Some ("idp0000", VNum (of_Z 1))
  /\ moving_up !! switch_serial = Some (switch (VStr "0"))
  /\ allowed VUndef (alias "switch") (switch (VStr "0")) = true
  /\ effects_of (parse moving_up "switch" switch_serial "no such channel" "on" VUndef)
     = [write (VStr switch_serial) "no such channel" (VStr "idp0000") (num 1)].
Proof.
  assert (H1 : table_entry VUndef (alias "switch") "on" = Some ("idp0000", VNum (of_Z 1)))
    by (vm_compute; reflexivity).
  assert (H2 : moving_up !! switch_serial = Some (switch (VStr "0")))
    by (vm_compute; reflexivity).
  assert (H3 : allowed VUndef (alias "switch") (switch (VStr "0")) = true)
    by (vm_compute; reflexivity).
  split; [ exact H1 | split; [ exact H2 | split; [ exact H3 | ] ] ].
  rewrite (number_goes_to_any_channel moving_up "switch" switch_serial "no such channel"
             "on" VUndef _ _ _ H1 H2 H3).
  reflexivity.
Defined.

(** X11. For an action whose value in the table is one [set] resolves against
    the State Store (toggle, toggle-up, pulse-down, up and down of the
    thermostat, ...), a channel the actuator does not have makes [parse]
    throw, after all four checks have passed: no message is returned and
    nothing is sent. *)
Theorem missing_channel_throws (actuators : gmap string Actuator)
    (type serialnumber channel action : string) (value : jsval)
    (a : Actuator) (dp : string) (v : jsval) :
  table_entry value (alias type) action = Some (dp, v) ->
  symbolic v = true ->
  actuators !! serialnumber = Some a ->
  allowed value (alias type) a = true ->
  channels a !! channel = None ->
  parse actuators type serialnumber channel action value = Throws [].
Proof.
  intros Hentry Hsym Ha Hallowed Hc.
  rewrite (parse_dispatch _ _ _ _ _ _ _ _ _ Hentry Ha Hallowed).
  unfold target. rewrite (symbolic_not_scene _ _ _ _ _ Hentry Hsym).
  rewrite symbolic_needs_channel; [ reflexivity | exact Hsym | ].
  unfold channel_of. cbn [to_string]. now rewrite Ha.
Qed.

Lemma missing_channel_throws_witness :
  table_entry VUndef (alias "switch") "toggle" = Some ("idp0000", VStr "x")
  /\ symbolic (VStr "x") = true
  /\ moving_up !! switch_serial = Some (switch (VStr "0"))
  /\ allowed VUndef (alias "switch") (switch (VStr "0")) = true
  /\ channels (switch (VStr "0")) !! "ch0007" = None
  /\ parse moving_up "switch" switch_serial "ch0007" "toggle" VUndef = Throws [].
Proof.
  assert (H1 : table_entry VUndef (alias "switch") "toggle" = Some ("idp0000", VStr "x"))
    by (vm_compute; reflexivity).
  assert (H2 : symbolic (VStr "x") = true) by reflexivity.
  assert (H3 : moving_up !! switch_serial = Some (switch (VStr "0")))
    by (vm_compute; reflexivity).
  assert (H4 : allowed VUndef (alias "switch") (switch (VStr "0")) = true)
    by (vm_compute; reflexivity).
  assert (H5 : channels (switch (VStr "0")) !! "ch0007" = None)
    by (vm_compute; reflexivity).
  repeat (split; [ assumption | ]).
  exact (missing_channel_throws moving_up "switch" switch_serial "ch0007" "toggle" VUndef
           _ _ _ H1 H2 H3 H4 H5).
Defined.

(** *** The caller's value *)

(** X12. [set] of a thermostat writes the caller's value minus 21, as a
    Number, to [idp0007] of any actuator of the State Store (the thermostat
    type has no allow-list) and any channel; with the value left out it
    writes [NaN]. *)
Theorem thermostat_set_offset (actuators : gmap string Actuator)
    (serialnumber channel : string) (value : jsval) (a : Actuator) :
  actuators !! serialnumber = Some a ->
  let offset := num_sub (to_number value) (of_Z 21) in
  parse actuators "thermostat" serialnumber channel "set" value
  = Returns (confirmation channel "thermostat" (VStr serialnumber) (typeName a) "set"
                          (VStr "idp0007") (VNum offset))
            [write (VStr serialnumber) channel (VStr "idp0007") (VNum offset)]
  /\ (value = VUndef -> offset = NaN).
Proof.
  intros Ha offset. split; [ | now intros -> ].
  assert (Hentry : table_entry value (alias "thermostat") "set"
                   = Some ("idp0007", VNum offset)) by reflexivity.
  assert (Hallowed : allowed value (alias "thermostat") a = true) by reflexivity.
  rewrite (parse_dispatch _ _ _ _ _ _ _ _ _ Hentry Ha Hallowed).
  change (target (alias "thermostat") serialnumber a) with (VStr serialnumber).
  now rewrite set_literal by discriminate.
Qed.

Lemma thermostat_set_offset_witness :
  moving_up !! thermostat_serial = Some (thermostat (VStr "20.5"))
  /\ effects_of (parse moving_up "thermostat" thermostat_serial "ch0000" "set" (VStr "22.5"))
     = [write (VStr thermostat_serial) "ch0000" (VStr "idp0007")
              (VNum (of_decimal false 15 (-1)))].
Proof.
  assert (Ha : moving_up !! thermostat_serial = Some (thermostat (VStr "20.5")))
    by (vm_compute; reflexivity).
  split; [ exact Ha | ].
  rewrite (proj1 (thermostat_set_offset moving_up thermostat_serial "ch0000" (VStr "22.5")
                    _ Ha)).
  vm_compute. reflexivity.
Defined.

(** X13. The value of a dimmer's [set] goes to [set] as the caller gave it,
    and so through the four branches: the string [x] as value is a toggle of
    [idp0002], and the complement of [odp0002] is written. *)
Theorem dimmer_set_resolves_the_value (actuators : gmap string Actuator)
    (serialnumber channel : string) (value : jsval) (a : Actuator) (c : Channel) :
  actuators !! serialnumber = Some a ->
  allowed value "dimmer" a = true ->
  channels a !! channel = Some c ->
  effects_of (parse actuators "dimmer" serialnumber channel "set" value)
  = effects_of (set actuators (VStr serialnumber) channel (VStr "idp0002") value)
  /\ (value = VStr "x" ->
      effects_of (parse actuators "dimmer" serialnumber channel "set" value)
      = [write (VStr serialnumber) channel (VStr "idp0002")
               (complement (datapoint_of c "odp0002"))]).
Proof.
  intros Ha Hallowed Hc.
  assert (Hentry : table_entry value (alias "dimmer") "set" = Some ("idp0002", value))
    by reflexivity.
  assert (Hparse :
    effects_of (parse actuators "dimmer" serialnumber channel "set" value)
    = effects_of (set actuators (VStr serialnumber) channel (VStr "idp0002") value)).
  { rewrite (parse_dispatch _ _ _ _ _ _ _ _ _ Hentry Ha Hallowed).
    change (target (alias "dimmer") serialnumber a) with (VStr serialnumber).
    now destruct (set _ _ _ _ _). }
  split; [ exact Hparse | ]. intros ->. rewrite Hparse.
  assert (Hid : deviceId a = VStr "101C").
  { unfold allowed in Hallowed.
    cbn [own_property commands String.eqb Ascii.eqb Bool.eqb deviceIds] in Hallowed.
    unfold not_listed in Hallowed. destruct (deviceId a) as [ | n | s ]; try discriminate.
    cbn [existsb] in Hallowed. rewrite orb_false_r, negb_involutive in Hallowed.
    now apply String.eqb_eq in Hallowed as ->. }
  unfold set. cbn [loose_eq String.eqb Ascii.eqb Bool.eqb to_string].
  rewrite Ha, Hid, Hc. reflexivity.
Qed.

Lemma dimmer_set_resolves_the_value_witness :
  workshop !! dimmer_serial = Some dimmer
  /\ allowed (VStr "x") "dimmer" dimmer = true
  /\ channels dimmer !! "ch0000" = Some dimmer_channel
  /\ effects_of (parse workshop "dimmer" dimmer_serial "ch0000" "set" (VStr "x"))
     = [write (VStr dimmer_serial) "ch0000" (VStr "idp0002") (num 0)].
Proof.
  assert (H1 : workshop !! dimmer_serial = Some dimmer) by (vm_compute; reflexivity).
  assert (H2 : allowed (VStr "x") "dimmer" dimmer = true) by (vm_compute; reflexivity).
  assert (H3 : channels dimmer !! "ch0000" = Some dimmer_channel)
    by (vm_compute; reflexivity).
  split; [ exact H1 | split; [ exact H2 | split; [ exact H3 | ] ] ].
  rewrite (proj2 (dimmer_set_resolves_the_value workshop dimmer_serial "ch0000" (VStr "x")
                    _ _ H1 H2 H3) eq_refl).
  vm_compute. reflexivity.
Defined.

(** X14. The allow-list is compared with [===]: an actuator whose [deviceId]
    is not a string (the Number 1013, say, or missing) is refused for every
    type that has an allow-list, as not of that type. *)
Theorem allow_list_wants_a_string (actuators : gmap string Actuator)
    (type serialnumber channel action : string) (value : jsval)
    (entry : command) (ids : list string) (chosen : string * jsval) (a : Actuator) :
  own_property (commands value) (alias type) = Some entry ->
  own_property (actions entry) action = Some chosen ->
  deviceIds entry = Some ids ->
  actuators !! serialnumber = Some a ->
  (forall s, deviceId a <> VStr s) ->
  parse actuators type serialnumber channel action value
  = refuse (wrong_type serialnumber (typeName a) (alias type)).
Proof.
  intros Hentry Haction Hids Ha Hid.
  apply (parse_wrong_type actuators type serialnumber channel action value entry a ids).
  - now apply get_property_own.
  - apply get_property_own in Haction. rewrite Haction. discriminate.
  - now apply actuator_of_own.
  - exact Hids.
  - unfold not_listed. destruct (deviceId a) as [ | n | s ]; try reflexivity.
    now destruct (Hid s).
Qed.

Lemma allow_list_wants_a_string_witness :
  parse workshop "blind" shutter_serial "ch0003" "up" VUndef
  = refuse (wrong_type shutter_serial (VStr "Sensor/ Jalousieaktor 1/1-fach") "shutter").
Proof.
  assert (H1 : own_property (commands VUndef) (alias "blind")
               = Some {| actions := [ ("up", ("idp0000", num 0));
                                      ("down", ("idp0000", num 1));
                                      ("toggle-up", ("idp0000", VStr "x-0"));
                                      ("toggle-down", ("idp0000", VStr "x-1"));
                                      ("pulse-up", ("idp0000", VStr "p-0"));
                                      ("pulse-down", ("idp0000", VStr "p-1"));
                                      ("stop", ("idp0001", num 1)) ];
                          deviceIds := Some ["B001"; "1013"] |}) by reflexivity.
  assert (Ha : workshop !! shutter_serial = Some numbered) by (vm_compute; reflexivity).
  assert (Hid : forall s, deviceId numbered <> VStr s) by (intros s; discriminate).
  exact (allow_list_wants_a_string workshop "blind" shutter_serial "ch0003" "up" VUndef
           _ _ _ _ H1 eq_refl eq_refl Ha Hid).
Defined.

End CommandMore.

(** ** More on the session *)

Module SysapMore.
Import JS Sysap Samples JSFacts SysapFacts.

(** *** Counting *)

Lemma calls_app (p : effect -> bool) (tr tr' : list (Z * effect)) :
  calls p (tr ++ tr') = (calls p tr + calls p tr')%nat.
Proof. unfold calls. now rewrite List.filter_app, length_app. Qed.

Lemma events_snoc (p : event -> bool) (evs : list event) (ev : event) :
  events p (evs ++ [ev]) = (events p evs + if p ev then 1 else 0)%nat.
Proof.
  unfold events. rewrite List.filter_app, length_app. cbn [List.filter].
  now destruct (p ev).
Qed.

Lemma earliest_length (l : list Z) :
  match earliest l with
  | Some (_, rest) => length l = S (length rest)
  | None => l = []
  end.
Proof.
  induction l as [ | t l IH ]; [ reflexivity | ]. cbn [earliest].
  destruct (earliest l) as [ [t' rest] | ].
  - destruct (t <=? t'); cbn [length]; congruence.
  - now subst l.
Qed.

(** What a call of [keepAlive] leaves behind, whenever it runs. *)
Lemma keepAlive_commit (v : vars) (c : Z) (ts : list Z) (tr : list (Z * effect)) :
  let r' := commit {| state := v; clock := c; timers := ts; trace := tr |} (keepAlive v) in
  count (state r') = increment (count v)
  /\ lastping (state r') = Some (increment (count v))
  /\ subscribed (state r') = subscribed v
  /\ timers r' = (ts ++ [c + 10000])%list
  /\ trace r' = (tr ++ [(c, SendPing (increment (count v)));
                        (c, SetTimeoutKeepAlive 10000)])%list.
Proof. unfold keepAlive. rewrite commit_eq. now repeat split. Qed.

Lemma online_commit (r : session) :
  let r' := commit r (on_online (state r)) in
  count (state r') = increment (count (state r))
  /\ lastping (state r') = Some (increment (count (state r)))
  /\ subscribed (state r') = subscribed (state r)
  /\ timers r' = (timers r ++ [clock r + 10000])%list
  /\ trace r' = (trace r ++ [(clock r, SendPing (increment (count (state r))));
                              (clock r, SetTimeoutKeepAlive 10000);
                              (clock r, Subscribe)])%list.
Proof. unfold on_online, keepAlive. rewrite commit_eq. now repeat split. Qed.

(** The trace a stanza adds, by its shape. *)
Lemma stanza_trace (r : session) (s : stanza) (is_sysap : bool) :
  trace (step r (Stanza s is_sysap))
  = (trace r ++ map (pair (clock r)) (snd (on_stanza (state r) s is_sysap)))%list.
Proof. cbn [step]. destruct (on_stanza _ _ _) as [v e]. now rewrite commit_eq. Qed.

(** *** The keepalive state in every run *)

(** [lastping] against the pings of the trace. *)
Lemma lastping_follows_pings_aux (t0 : Z) (evs : list event) :
  let r := exec evs (boot t0) in
  pings (trace r) = [] /\ lastping (state r) = None
  \/ exists earlier t n,
       pings (trace r) = (earlier ++ [(t, n)])%list /\ lastping (state r) = Some n.
Proof.
  intros r. pose proof (lastping_is_last_ping t0 evs) as H. fold r in H.
  unfold last_ping in H.
  destruct (pings (trace r)) as [ | p ps ] using rev_ind.
  - left. now split.
  - right. destruct p as [t n]. exists ps, t, n. split; [ reflexivity | ].
    rewrite H, map_app. cbn [map]. now rewrite List.last_last.
Qed.

(** X15. In every run the value a result's id is compared with is
    [undefined] as long as no ping has been sent, and from then on the Number
    of the id of the ping sent last. *)
Theorem lastping_follows_the_pings (t0 : Z) (evs : list event) :
  let r := exec evs (boot t0) in
  match pings (trace r) with
  | [] => lastping_value (state r) = VUndef
  | p :: ps => lastping_value (state r) = num (snd (List.last ps p))
  end.
Proof.
  intros r. unfold lastping_value.
  destruct (lastping_follows_pings_aux t0 evs) as [ [Hp Hl] | (earlier & t & n & Hp & Hl) ];
    fold r in Hp, Hl; rewrite Hp, Hl; [ reflexivity | ].
  destruct earlier as [ | p ps ]; [ reflexivity | ].
  cbn [app]. now rewrite List.last_last.
Qed.

(** The counter never goes below 0. *)
Lemma count_nonneg (t0 : Z) (evs : list event) : 0 <= count (state (exec evs (boot t0))).
Proof.
  assert (Hinc : forall n, 0 <= n -> 0 <= increment n).
  { intros n Hn. unfold increment. destruct (n <? 2 ^ 53); lia. }
  induction evs as [ | ev evs IH ] using rev_ind; [ cbn; lia | ].
  rewrite exec_snoc. set (r := exec evs (boot t0)) in *.
  destruct ev as [ | s is_sysap | | ]; cbn [step].
  - destruct (online_commit r) as (-> & _). now apply Hinc.
  - destruct (stanza_leaves_keepalive r s is_sysap) as (H & _). cbn [step] in H.
    now rewrite H.
  - destruct (earliest (timers r)) as [ [due rest] | ]; [ | exact IH ].
    destruct (keepAlive_commit (state r) (Z.max (clock r) due) rest (trace r)) as (-> & _).
    now apply Hinc.
  - exact IH.
Qed.

(** X16. In every run of at most 2^53 events the pings carry the ids 1, 2,
    3, ... in the order they are sent, however many keepalive loops run, and
    the counter is the number of pings sent. *)
Theorem ping_ids_count_up (t0 : Z) (evs : list event) :
  Z.of_nat (length evs) <= 2 ^ 53 ->
  let r := exec evs (boot t0) in
  let n := length (pings (trace r)) in
  count (state r) = Z.of_nat n
  /\ map snd (pings (trace r)) = map (fun i => Z.of_nat i + 1) (seq 0 n).
Proof.
  cbv zeta.
  enough (H : Z.of_nat (length evs) <= 2 ^ 53 ->
              (length (pings (trace (exec evs (boot t0)))) <= length evs)%nat
              /\ count (state (exec evs (boot t0)))
                 = Z.of_nat (length (pings (trace (exec evs (boot t0)))))
              /\ map snd (pings (trace (exec evs (boot t0))))
                 = map (fun i => Z.of_nat i + 1)
                       (seq 0 (length (pings (trace (exec evs (boot t0)))))))
    by (intros Hb; now destruct (H Hb) as (_ & ? & ?)).
  induction evs as [ | ev evs IH ] using rev_ind; intros Hbound.
  - repeat split. cbn. lia.
  - rewrite length_app in Hbound |- *. cbn [length] in Hbound |- *.
    destruct (IH ltac:(lia)) as (Hlen & Hcount & Hids). clear IH.
    rewrite exec_snoc. set (r := exec evs (boot t0)) in *.
    assert (Hping : forall r' c',
      count (state r') = increment (count (state r)) ->
      pings (trace r') = (pings (trace r) ++ [(c', increment (count (state r)))])%list ->
      (length (pings (trace r')) <= length evs + 1)%nat
      /\ count (state r') = Z.of_nat (length (pings (trace r')))
      /\ map snd (pings (trace r'))
         = map (fun i => Z.of_nat i + 1) (seq 0 (length (pings (trace r'))))).
    { intros r' c' Hc' Hp'. rewrite Hc', Hp', length_app, map_app. cbn [length map snd].
      assert (Hinc : increment (count (state r)) = count (state r) + 1).
      { unfold increment. destruct (_ <? _) eqn:E; [ reflexivity | ].
        apply Z.ltb_ge in E. lia. }
      rewrite Hinc, Hcount.
      replace (length (pings (trace r)) + 1)%nat with (S (length (pings (trace r))))
        by lia.
      rewrite seq_S, map_app, <- Hids. cbn [map Nat.add].
      split; [ lia | split; [ lia | reflexivity ] ]. }
    destruct ev as [ | s is_sysap | | ]; cbn [step].
    + destruct (online_commit r) as (Hc' & _ & _ & _ & Htr).
      apply (Hping _ (clock r) Hc'). rewrite Htr, pings_app. cbn. reflexivity.
    + destruct (stanza_leaves_keepalive r s is_sysap) as (Hc' & _ & _ & _ & Hp').
      cbn [step] in Hc', Hp'. rewrite Hc', Hp'.
      split; [ lia | split; assumption ].
    + destruct (earliest (timers r)) as [ [due rest] | ];
        [ | split; [ lia | split; assumption ] ].
      destruct (keepAlive_commit (state r) (Z.max (clock r) due) rest (trace r))
        as (Hc' & _ & _ & _ & Htr).
      apply (Hping _ (Z.max (clock r) due) Hc'). rewrite Htr, pings_app. cbn. reflexivity.
    + split; [ lia | split; assumption ].
Qed.

Lemma ping_ids_count_up_witness :
  let evs := [Online; Timer; Stanza update_stanza false; Online; Timer; Timer] in
  Z.of_nat (length evs) <= 2 ^ 53
  /\ map snd (pings (trace (exec evs (boot 0)))) = [1; 2; 3; 4; 5].
Proof.
  intros evs.
  assert (H : Z.of_nat (length evs) <= 2 ^ 53) by (vm_compute; discriminate).
  split; [ exact H | ].
  etransitivity; [ exact (proj2 (ping_ids_count_up 0 evs H)) | vm_compute; reflexivity ].
Defined.

(** X17. Every [online] event adds one keepalive loop and nothing ever ends
    one: in every run the number of armed timers is the number of [online]
    events so far. *)
Theorem one_timer_per_online (t0 : Z) (evs : list event) :
  length (timers (exec evs (boot t0))) = events is_Online evs.
Proof.
  induction evs as [ | ev evs IH ] using rev_ind; [ reflexivity | ].
  rewrite exec_snoc, events_snoc. set (r := exec evs (boot t0)) in *.
  destruct ev as [ | s is_sysap | | ]; cbn [step is_Online].
  - destruct (online_commit r) as (_ & _ & _ & -> & _). rewrite length_app. cbn. lia.
  - destruct (stanza_leaves_keepalive r s is_sysap) as (_ & _ & Ht & _).
    cbn [step] in Ht. rewrite Ht. lia.
  - pose proof (earliest_length (timers r)) as He.
    destruct (earliest (timers r)) as [ [due rest] | ]; [ | lia ].
    destruct (keepAlive_commit (state r) (Z.max (clock r) due) rest (trace r))
      as (_ & _ & _ & -> & _).
    rewrite length_app. cbn [length]. lia.
  - lia.
Qed.

(** X18. Stanzas, however many and of whatever shape, leave the keepalive
    alone: the counter, [lastping], the armed timers and the pings sent are
    what they were. *)
Theorem stanzas_leave_the_keepalive (frames : list (stanza * bool)) : forall r : session,
  let r' := exec (map (fun f => Stanza (fst f) (snd f)) frames) r in
  count (state r') = count (state r) /\ lastping (state r') = lastping (state r)
  /\ timers r' = timers r /\ pings (trace r') = pings (trace r).
Proof.
  induction frames as [ | [s is_sysap] frames IH ]; intros r; [ now repeat split | ].
  cbn [map exec fold_left fst snd].
  destruct (stanza_leaves_keepalive r s is_sysap) as (Hc & Hl & Ht & _ & Hp).
  destruct (IH (step r (Stanza s is_sysap))) as (Hc' & Hl' & Ht' & Hp').
  unfold exec in Hc', Hl', Ht', Hp'. cbv zeta in Hc', Hl', Ht', Hp'.
  rewrite Hc', Hl', Ht', Hp'. now repeat split.
Qed.

(** *** Routing *)

(** X19. The three shapes the handler knows exclude one another, so the
    order of its tests decides nothing. *)
Theorem shapes_exclude_one_another (s : stanza) :
  (is_update s && is_result s = false)%bool
  /\ (is_update s && is_presence s = false)%bool
  /\ (is_result s && is_presence s = false)%bool.
Proof.
  unfold is_update, is_result, is_presence.
  destruct (String.eqb (name s) "message") eqn:Em;
    destruct (String.eqb (name s) "iq") eqn:Ei;
    destruct (String.eqb (name s) "presence") eqn:Ep;
    rewrite ?String.eqb_eq in *; cbn [andb]; repeat split; try reflexivity;
    rewrite ?andb_false_r; try reflexivity; congruence.
Qed.

(** What one stanza adds to the calls of the collaborator. *)
Lemma stanza_calls (r : session) (s : stanza) (is_sysap : bool) :
  let tr' := trace (step r (Stanza s is_sysap)) in
  calls is_Update tr'
  = (calls is_Update (trace r) + if is_update s then 1 else 0)%nat
  /\ calls is_Presence tr'
     = (calls is_Presence (trace r) + if is_presence s then 1 else 0)%nat
  /\ (calls is_Status tr' + calls is_Update (trace r) + calls is_Response (trace r)
      = calls is_Status (trace r) + calls is_Update tr' + calls is_Response tr')%nat.
Proof.
  cbv zeta. rewrite stanza_trace. unfold on_stanza.
  destruct (is_presence s) eqn:Hp.
  - destruct (presence_is_nothing_else s Hp) as [-> ->].
    destruct (_ && _)%bool; cbn [snd map]; rewrite !calls_app; cbn; lia.
  - destruct (is_update s); [ | destruct (is_result s); [ destruct (loose_eq _ _) | ] ];
      cbn [snd map]; rewrite !calls_app; cbn; lia.
Qed.

Lemma other_calls (r r' : session) (extra : list (Z * effect)) :
  trace r' = (trace r ++ extra)%list ->
  Forall (fun te => match snd te with
                    | SendPing _ | SetTimeoutKeepAlive _ | Subscribe => True
                    | _ => False
                    end) extra ->
  calls is_Update (trace r') = calls is_Update (trace r)
  /\ calls is_Presence (trace r') = calls is_Presence (trace r)
  /\ calls is_Status (trace r') = calls is_Status (trace r)
  /\ calls is_Response (trace r') = calls is_Response (trace r).
Proof.
  intros -> Hextra. rewrite !calls_app.
  assert (H : forall p, (p = is_Update \/ p = is_Presence \/ p = is_Status \/ p = is_Response)
                        -> calls p extra = 0%nat).
  { intros p Hp. induction Hextra as [ | [t e] extra He _ IH ]; [ reflexivity | ].
    unfold calls in *. cbn [List.filter snd] in *.
    destruct e; try contradiction;
      destruct Hp as [ -> | [ -> | [ -> | -> ] ] ]; exact IH. }
  rewrite !H by tauto. lia.
Qed.

(** X20. In every run each update goes to the update handler and each
    presence stanza to the presence handler, once, and no other stanza does;
    and the status is published once for every update or response handed
    on, and never else. *)
Theorem every_stanza_is_routed_once (t0 : Z) (evs : list event) :
  let tr := trace (exec evs (boot t0)) in
  calls is_Update tr = events (shaped is_update) evs
  /\ calls is_Presence tr = events (shaped is_presence) evs
  /\ calls is_Status tr = (calls is_Update tr + calls is_Response tr)%nat.
Proof.
  cbv zeta. induction evs as [ | ev evs (IHu & IHp & IHs) ] using rev_ind;
    [ now repeat split | ].
  rewrite exec_snoc, !events_snoc. set (r := exec evs (boot t0)) in *.
  destruct ev as [ | s is_sysap | | ]; cbn [shaped].
  - destruct (online_commit r) as (_ & _ & _ & _ & Htr). cbn [step].
    destruct (other_calls r _ _ Htr) as (-> & -> & -> & ->);
      [ repeat constructor | ].
    repeat split; lia.
  - destruct (stanza_calls r s is_sysap) as (Hu & Hp & Hs).
    rewrite Hu, Hp, IHu, IHp. repeat split; lia.
  - cbn [step]. destruct (earliest (timers r)) as [ [due rest] | ];
      [ | repeat split; lia ].
    destruct (keepAlive_commit (state r) (Z.max (clock r) due) rest (trace r))
      as (_ & _ & _ & _ & Htr).
    destruct (other_calls r _ _ Htr) as (-> & -> & -> & ->);
      [ repeat constructor | ].
    repeat split; lia.
  - cbn [step]. repeat split; lia.
Qed.

(** X21. A result stanza without an id is dropped as a ping result as long
    as no ping has been sent ([undefined == undefined]); once one has been
    sent, it goes to the response handler and the status is published. *)
Theorem result_without_id (t0 : Z) (evs : list event) (s : stanza) (is_sysap : bool) :
  is_result s = true ->
  attrs_id s = VUndef ->
  let r := exec evs (boot t0) in
  trace (step r (Stanza s is_sysap))
  = match pings (trace r) with
    | [] => trace r
    | _ :: _ => (trace r ++ [(clock r, Response s); (clock r, Status)])%list
    end.
Proof.
  intros Hres Hid r. rewrite stanza_trace. unfold on_stanza, lastping_value.
  rewrite (result_is_no_update s Hres), Hres, Hid.
  destruct (lastping_follows_pings_aux t0 evs) as [ [Hp Hl] | (earlier & t & n & Hp & Hl) ];
    fold r in Hp, Hl; rewrite Hp, Hl.
  - cbn. now rewrite app_nil_r.
  - destruct earlier; reflexivity.
Qed.

Lemma result_without_id_witness :
  is_result (result_stanza VUndef) = true
  /\ attrs_id (result_stanza VUndef) = VUndef
  /\ trace (step (exec [Stanza update_stanza false] (boot 0))
                 (Stanza (result_stanza VUndef) false))
     = trace (exec [Stanza update_stanza false] (boot 0))
  /\ trace (step (exec [Online] (boot 0)) (Stanza (result_stanza VUndef) false))
     = (trace (exec [Online] (boot 0))
        ++ [(0, Response (result_stanza VUndef)); (0, Status)])%list.
Proof.
  assert (H1 : is_result (result_stanza VUndef) = true) by reflexivity.
  assert (H2 : attrs_id (result_stanza VUndef) = VUndef) by reflexivity.
  split; [ exact H1 | split; [ exact H2 | split ] ].
  - exact (result_without_id 0 [Stanza update_stanza false] (result_stanza VUndef) false
             H1 H2).
  - exact (result_without_id 0 [Online] (result_stanza VUndef) false H1 H2).
Defined.

Lemma lastping_nonneg (t0 : Z) (evs : list event) (n : Z) :
  lastping (state (exec evs (boot t0))) = Some n -> 0 <= n.
Proof.
  revert n. induction evs as [ | ev evs IH ] using rev_ind; intros n; [ discriminate | ].
  rewrite exec_snoc. pose proof (count_nonneg t0 evs) as Hcount.
  set (r := exec evs (boot t0)) in *.
  assert (Hinc : 0 <= increment (count (state r))).
  { unfold increment. destruct (_ <? _); lia. }
  destruct ev as [ | s is_sysap | | ]; cbn [step].
  - destruct (online_commit r) as (_ & -> & _). now intros [= <-].
  - destruct (stanza_leaves_keepalive r s is_sysap) as (_ & Hl & _). cbn [step] in Hl.
    rewrite Hl. apply IH.
  - destruct (earliest (timers r)) as [ [due rest] | ]; [ | apply IH ].
    destruct (keepAlive_commit (state r) (Z.max (clock r) due) rest (trace r))
      as (_ & -> & _).
    now intros [= <-].
  - apply IH.
Qed.

(** X22. In every run, a result stanza from the RPC address whose id is the
    decimal numeral of the id of the ping sent last changes nothing: the
    string on the wire is [==] the Number kept in [lastping]. *)
Theorem echoed_id_is_dropped (t0 : Z) (evs : list event) (s : stanza) (is_sysap : bool)
    (earlier : list (Z * Z)) (t n : Z) :
  is_result s = true ->
  pings (trace (exec evs (boot t0))) = (earlier ++ [(t, n)])%list ->
  attrs_id s = VStr (digits n) ->
  step (exec evs (boot t0)) (Stanza s is_sysap) = exec evs (boot t0).
Proof.
  intros Hres Hpings Hid.
  destruct (lastping_follows_pings_aux t0 evs)
    as [ [Hp _] | (earlier' & t' & n' & Hp & Hl) ]; rewrite Hpings in Hp.
  { now destruct earlier. }
  apply app_inj_tail in Hp as [_ [= <- <-]].
  cbn [step]. rewrite ping_result_consumed;
    [ now destruct (exec evs (boot t0)) | exact Hres | ].
  unfold lastping_value. rewrite Hl, Hid.
  apply echoed_id_is_equal. now apply (lastping_nonneg t0 evs).
Qed.

Lemma echoed_id_is_dropped_witness :
  let evs := [Online; Timer; Online; Stanza update_stanza false] in
  is_result (result_stanza (VStr "3")) = true
  /\ pings (trace (exec evs (boot 0))) = ([(0, 1); (10000, 2)] ++ [(10000, 3)])%list
  /\ attrs_id (result_stanza (VStr "3")) = VStr (digits 3)
  /\ step (exec evs (boot 0)) (Stanza (result_stanza (VStr "3")) false)
     = exec evs (boot 0).
Proof.
  intros evs.
  assert (H1 : is_result (result_stanza (VStr "3")) = true) by reflexivity.
  assert (H2 : pings (trace (exec evs (boot 0)))
               = ([(0, 1); (10000, 2)] ++ [(10000, 3)])%list)
    by (vm_compute; reflexivity).
  assert (H3 : attrs_id (result_stanza (VStr "3")) = VStr (digits 3)) by reflexivity.
  split; [ exact H1 | split; [ exact H2 | split; [ exact H3 | ] ] ].
  exact (echoed_id_is_dropped 0 evs (result_stanza (VStr "3")) false _ _ _ H1 H2 H3).
Defined.

End SysapMore.
